(** * A daily CSV-to-table pipeline: extract, clean, load

    Shallow embedding of [pipeline_tasl1.py] and the properties of its
    three stages ([extract_data_from_url], [transform_data], [load_data])
    and of the function that sequences them ([run_etl_pipeline]).

    The program is written against pandas; the part of pandas it relies on
    is modelled here as pandas implements it:
    - a [DataFrame] is an ordered list of labelled, typed columns;
    - a [float64] column stores IEEE-754 binary64 numbers, and a missing
      value of such a column is the number NaN;
    - an [object] column read from CSV stores text, and a missing value is
      a distinguished marker;
    - [Series.mean] is [nanops.nanmean]: missing entries are replaced by
      zero, the array is summed in binary64 in the order of numpy's
      pairwise sum, and the sum is divided by the number of present
      entries;
    - [Series.mode] counts the present values, keeps those with the highest
      count and sorts them ascending;
    - [DataFrame.duplicated] walks the rows with a table of the rows seen
      so far, where two missing values are the same key;
    - [df[col]] is a view of the column, so that an in-place [fillna] on it
      changes the frame.

    HTTP, CSV parsing, date parsing, the clock and the relational store are
    the outside world: the program is a function of what they answer, and
    the statements hold for every answer. *)

From Stdlib Require Import ZArith String Ascii Bool Arith Lia List.
From Stdlib Require Import DecimalString Sorted.
From Stdlib Require Import Floats.SpecFloat.
Import ListNotations.

Open Scope string_scope.
Open Scope list_scope.
Open Scope Z_scope.

(** ** binary64 numbers *)

Module F64.

Definition prec : Z := 53.
Definition emax : Z := 1024.

Definition t := spec_float.

Definition nan : t := S754_nan.
Definition zero : t := S754_zero false.
Definition neg_zero : t := S754_zero true.

Definition add : t -> t -> t := SFadd prec emax.
Definition div : t -> t -> t := SFdiv prec emax.
Definition eqb : t -> t -> bool := SFeqb.

(** Conversion of an integer, rounding to nearest even. *)
Definition of_Z (z : Z) : t := binary_normalize prec emax z 0 false.
Definition of_nat (n : nat) : t := of_Z (Z.of_nat n).

(** [x != x] *)
Definition isnan (x : t) : bool :=
  match x with S754_nan => true | _ => false end.

(** The key equality of pandas' float64 hash table:
    [a == b || (a != a && b != b)]. *)
Definition key_eqb (a b : t) : bool := eqb a b || (isnan a && isnan b).

End F64.

Definition float64 : Type := F64.t.

(** ** Columns and frames *)

(** The column types [read_csv] infers, and [datetime64[ns]], which
    [to_datetime] produces.  A timestamp is its count of nanoseconds since
    the epoch; [None] is NaT.  An [object] column holds text, and [None]
    in it is NaN; object columns of other Python values (a column of
    booleans with a gap) are not covered. *)
Inductive coldata : Type :=
| Int64 (xs : list Z)
| Float64 (xs : list float64)
| Bool (xs : list bool)
| Object (xs : list (option string))
| Datetime64 (xs : list (option Z)).

Definition column : Type := string * coldata.
Definition frame : Type := list column.

Definition col_len (c : coldata) : nat :=
  match c with
  | Int64 xs => length xs
  | Float64 xs => length xs
  | Bool xs => length xs
  | Object xs => length xs
  | Datetime64 xs => length xs
  end.

(** [df.columns] *)
Definition columns (df : frame) : list string := map fst df.

(** [len(df)] *)
Definition len (df : frame) : nat :=
  match df with
  | [] => 0%nat
  | (_, c) :: _ => col_len c
  end.

(** Every column has one entry per row, as in every [DataFrame]. *)
Definition aligned (df : frame) : bool :=
  forallb (fun c => Nat.eqb (col_len (snd c)) (len df)) df.

(** Labels are pairwise distinct, as [read_csv] makes them. *)
Fixpoint unique_labels (ls : list string) : bool :=
  match ls with
  | [] => true
  | l :: ls' => negb (existsb (String.eqb l) ls') && unique_labels ls'
  end.

(** [name in df.columns] *)
Definition has_column (name : string) (df : frame) : bool :=
  existsb (String.eqb name) (columns df).

(** [df[name]], for a frame with distinct labels: the column of that
    label. *)
Definition get_col (name : string) (df : frame) : option coldata :=
  match find (fun c => String.eqb name (fst c)) df with
  | Some c => Some (snd c)
  | None => None
  end.

(** [df[name] = data], and the in-place update of the column [df[name]]. *)
Definition set_col (name : string) (data : coldata) (df : frame) : frame :=
  map (fun c => if String.eqb name (fst c) then (fst c, data) else c) df.

(** [include=np.number] *)
Definition is_number (c : coldata) : bool :=
  match c with Int64 _ | Float64 _ => true | _ => false end.

(** [include='object'] *)
Definition is_object (c : coldata) : bool :=
  match c with Object _ => true | _ => false end.

(** [df.select_dtypes(include=...).columns] *)
Definition select_dtypes (include : coldata -> bool) (df : frame) : list string :=
  columns (filter (fun c => include (snd c)) df).

Definition is_none {A} (o : option A) : bool :=
  match o with None => true | Some _ => false end.

(** [series.isnull()] *)
Definition isnull (c : coldata) : list bool :=
  match c with
  | Int64 xs => map (fun _ => false) xs
  | Float64 xs => map F64.isnan xs
  | Bool xs => map (fun _ => false) xs
  | Object xs => map is_none xs
  | Datetime64 xs => map is_none xs
  end.

(** [mask.any()] *)
Definition any (mask : list bool) : bool := existsb (fun b => b) mask.

(** ** Mean of a float64 column *)

(** The sum of a contiguous array of binary64 numbers as numpy computes
    it ([pairwise_sum] of its add loop).  Fewer than eight numbers are
    added one after the other. *)
Definition sum_few (xs : list float64) : float64 :=
  fold_left F64.add xs F64.neg_zero.

(** Eight running sums, one for each position in a block of eight. *)
Definition lanes : Type :=
  float64 * float64 * float64 * float64 * float64 * float64 * float64 * float64.

(** The blocks of eight are added lane by lane; what is left when fewer
    than eight numbers remain is returned with the lanes. *)
Fixpoint add_blocks (r : lanes) (xs : list float64) : lanes * list float64 :=
  match xs with
  | a0 :: a1 :: a2 :: a3 :: a4 :: a5 :: a6 :: a7 :: rest =>
      let '(r0, r1, r2, r3, r4, r5, r6, r7) := r in
      add_blocks
        (F64.add r0 a0, F64.add r1 a1, F64.add r2 a2, F64.add r3 a3,
         F64.add r4 a4, F64.add r5 a5, F64.add r6 a6, F64.add r7 a7)
        rest
  | _ => (r, xs)
  end.

(** Up to 128 numbers: the lanes start as the first eight numbers, are
    added in pairs at the end, and the numbers left over are added to the
    result one after the other. *)
Definition sum_block (xs : list float64) : float64 :=
  match xs with
  | a0 :: a1 :: a2 :: a3 :: a4 :: a5 :: a6 :: a7 :: rest =>
      let '(r0, r1, r2, r3, r4, r5, r6, r7, left_over) :=
        add_blocks (a0, a1, a2, a3, a4, a5, a6, a7) rest in
      fold_left F64.add left_over
        (F64.add (F64.add (F64.add r0 r1) (F64.add r2 r3))
           (F64.add (F64.add r4 r5) (F64.add r6 r7)))
  | _ => sum_few xs
  end.

(** More than 128 numbers: the array is cut in two near the middle, at a
    multiple of eight, and the sums of the halves are added.  The first
    argument bounds the depth of the cuts; the length of the array is
    enough. *)
Fixpoint pairwise_sum (depth : nat) (xs : list float64) : float64 :=
  match depth with
  | O => sum_block xs
  | S depth' =>
      let n := length xs in
      if (n <=? 128)%nat then sum_block xs
      else
        let n2 := (n / 2 - (n / 2) mod 8)%nat in
        F64.add (pairwise_sum depth' (firstn n2 xs)) (pairwise_sum depth' (skipn n2 xs))
  end.

(** [values.sum()]: the reduction starts from the identity of the
    addition of floats. *)
Definition np_sum (xs : list float64) : float64 :=
  F64.add F64.neg_zero (pairwise_sum (length xs) xs).

(** [nanops.nanmean] with [skipna=True]. *)
Definition nanmean (xs : list float64) : float64 :=
  let values := map (fun x => if F64.isnan x then F64.zero else x) xs in
  let count := length (filter (fun x => negb (F64.isnan x)) xs) in
  let the_sum := np_sum values in
  if (0 <? count)%nat then F64.div the_sum (F64.of_nat count) else F64.nan.

(** [series.fillna(value)] on float64 data. *)
Definition fillna_float (value : float64) (xs : list float64) : list float64 :=
  map (fun x => if F64.isnan x then value else x) xs.

(** ** Mode of an object column *)

Definition count_str (s : string) (xs : list (option string)) : nat :=
  length (filter (fun o => match o with Some s' => String.eqb s s' | None => false end) xs).

(** The present values, each once, in the order of first appearance. *)
Fixpoint uniques (seen : list string) (xs : list (option string)) : list string :=
  match xs with
  | [] => []
  | None :: xs' => uniques seen xs'
  | Some s :: xs' =>
      if existsb (String.eqb s) seen then uniques seen xs'
      else s :: uniques (s :: seen) xs'
  end.

Definition max_count (xs : list (option string)) : nat :=
  fold_right (fun s m => Nat.max (count_str s xs) m) 0%nat (uniques [] xs).

(** Insertion into an ascending list, and the sort [np.sort] stands for. *)
Fixpoint insert_sorted (s : string) (l : list string) : list string :=
  match l with
  | [] => [s]
  | x :: l' => if String.leb s x then s :: l else x :: insert_sorted s l'
  end.

Definition sort_strings (l : list string) : list string :=
  fold_right insert_sorted [] l.

(** [series.mode()] with [dropna=True]: the most frequent present values,
    ascending. *)
Definition mode (xs : list (option string)) : list string :=
  sort_strings
    (filter (fun s => Nat.eqb (count_str s xs) (max_count xs)) (uniques [] xs)).

(** [series.fillna(value)] on object data. *)
Definition fillna_object (value : string) (xs : list (option string))
  : list (option string) :=
  map (fun o => match o with None => Some value | Some _ => o end) xs.

(** ** Rows and duplicates *)

Inductive cell : Type :=
| CInt (z : Z)
| CFloat (x : float64)
| CBool (b : bool)
| CObj (o : option string)
| CTime (t : option Z).

Definition cells (c : coldata) : list cell :=
  match c with
  | Int64 xs => map CInt xs
  | Float64 xs => map CFloat xs
  | Bool xs => map CBool xs
  | Object xs => map CObj xs
  | Datetime64 xs => map CTime xs
  end.

Definition row : Type := list cell.

(** [zipWith]: pairs up two lists, stopping with the shorter one. *)
Fixpoint zip_with {A B C} (f : A -> B -> C) (l : list A) (l' : list B) : list C :=
  match l, l' with
  | x :: t, y :: t' => f x y :: zip_with f t t'
  | _, _ => []
  end.

Fixpoint rows_of (n : nat) (df : frame) : list row :=
  match df with
  | [] => repeat [] n
  | (_, c) :: df' => zip_with cons (cells c) (rows_of n df')
  end.

(** The rows of a frame, top to bottom. *)
Definition rows (df : frame) : list row := rows_of (len df) df.

Definition option_eqb {A} (eqb : A -> A -> bool) (a b : option A) : bool :=
  match a, b with
  | None, None => true
  | Some x, Some y => eqb x y
  | _, _ => false
  end.

(** When two cells are the same key for [duplicated]: equal values, and a
    missing value is the same key as any other missing value of its
    column. *)
Definition cell_eqb (a b : cell) : bool :=
  match a, b with
  | CInt x, CInt y => Z.eqb x y
  | CFloat x, CFloat y => F64.key_eqb x y
  | CBool x, CBool y => Bool.eqb x y
  | CObj x, CObj y => option_eqb String.eqb x y
  | CTime x, CTime y => option_eqb Z.eqb x y
  | _, _ => false
  end.

Fixpoint row_eqb (r s : row) : bool :=
  match r, s with
  | [], [] => true
  | a :: r', b :: s' => cell_eqb a b && row_eqb r' s'
  | _, _ => false
  end.

(** [duplicated(keep='first')] over the rows, with the table of rows seen
    so far. *)
Fixpoint duplicated_from (seen : list row) (rs : list row) : list bool :=
  match rs with
  | [] => []
  | r :: rs' =>
      if existsb (row_eqb r) seen then true :: duplicated_from seen rs'
      else false :: duplicated_from (r :: seen) rs'
  end.

Definition duplicated (df : frame) : list bool := duplicated_from [] (rows df).

(** Boolean-mask selection [xs[mask]]. *)
Fixpoint select {A} (mask : list bool) (xs : list A) : list A :=
  match mask, xs with
  | b :: mask', x :: xs' => if b then x :: select mask' xs' else select mask' xs'
  | _, _ => []
  end.

Definition col_select (mask : list bool) (c : coldata) : coldata :=
  match c with
  | Int64 xs => Int64 (select mask xs)
  | Float64 xs => Float64 (select mask xs)
  | Bool xs => Bool (select mask xs)
  | Object xs => Object (select mask xs)
  | Datetime64 xs => Datetime64 (select mask xs)
  end.

(** [df[mask]] *)
Definition frame_select (mask : list bool) (df : frame) : frame :=
  map (fun c => (fst c, col_select mask (snd c))) df.

(** [df.drop_duplicates(inplace=True)]: [df[-df.duplicated()]]. *)
Definition drop_duplicates (df : frame) : frame :=
  frame_select (map negb (duplicated df)) df.

(** ** Exceptions, console lines and observable events *)

(** The exception classes the program tells apart. *)
Inductive exn : Type :=
| RequestException (msg : string)
  (** [requests.exceptions.RequestException] and its subclasses, among
      them [ConnectionError], [Timeout] and [HTTPError] *)
| EmptyDataError (msg : string)
| KeyError (msg : string)
| TypeError (msg : string)
| OtherException (msg : string).

(** [str(e)] *)
Definition exn_msg (e : exn) : string :=
  match e with
  | RequestException m | EmptyDataError m | KeyError m | TypeError m
  | OtherException m => m
  end.

(** One constructor per [print] statement of the program. *)
Inductive line : Type :=
| LAttempt (url : string)
| LExtracted (url : string)
| LDownloadError (e : string)
| LEmptyData (url : string)
| LExtractUnexpected (e : string)
| LTransformStart
| LFilledMean (col : string)
| LFilledMode (col : string)
| LRemovedDuplicates (n : nat)
| LDateWarning
| LDateConverted
| LTransformDone
| LNoData
| LLoaded (table_name db_url : string)
| LLoadError (e : string)
| LPipelineStarted (ctime : string)
| LAbortExtract
| LAbortTransform
| LPipelineFinished (ctime : string).

Definition string_of_nat (n : nat) : string :=
  NilZero.string_of_uint (Nat.to_uint n).

Definition string_of_Z (z : Z) : string :=
  NilZero.string_of_int (Z.to_int z).

Definition newline : string := String (ascii_of_nat 10) EmptyString.

(** The text each line is printed as. *)
Definition render (l : line) : string :=
  match l with
  | LAttempt url => "Attempting to download data from: " ++ url
  | LExtracted url => "Successfully extracted data from URL: " ++ url
  | LDownloadError e => "Error downloading data from URL: " ++ e
  | LEmptyData url => "Error: Empty data received from URL: " ++ url
  | LExtractUnexpected e => "An unexpected error occurred during extraction: " ++ e
  | LTransformStart => "Starting data transformation..."
  | LFilledMean col => "  Filled missing numerical values in '" ++ col ++ "' with mean."
  | LFilledMode col => "  Filled missing categorical values in '" ++ col ++ "' with mode."
  | LRemovedDuplicates n => "  Removed " ++ string_of_nat n ++ " duplicate rows."
  | LDateWarning => "  Warning: Some 'Date' values could not be converted to datetime."
  | LDateConverted => "  Converted 'Date' to datetime format."
  | LTransformDone => "Data transformation complete."
  | LNoData => "No data to load."
  | LLoaded table_name db_url =>
      "Successfully loaded data into table: " ++ table_name ++ " in " ++ db_url
  | LLoadError e => "An error occurred during loading data to database: " ++ e
  | LPipelineStarted t => newline ++ "ETL pipeline started at " ++ t ++ "..."
  | LAbortExtract => "ETL pipeline aborted due to extraction errors."
  | LAbortTransform => "ETL pipeline aborted due to transformation errors."
  | LPipelineFinished t => "ETL pipeline finished at " ++ t ++ "."
  end%string.

Inductive stage : Type := Fetcher | Cleaner | Loader.

(** What a run does that can be observed from outside, in order: the lines
    it prints, its calls of [requests.get] (one [HttpGet] for a call,
    whatever redirects the library follows to answer it), the engines it
    creates and the table writes it issues.  [Enter] records the entry
    into a stage function. *)
Inductive event : Type :=
| Print (l : line)
| Enter (s : stage)
| HttpGet (url : string)
| CreateEngine (db_url : string)
| ToSql (db_url table_name : string) (df : frame).

(** The relational stores, by connection string and table name. *)
Definition store : Type := string -> string -> option frame.

Definition store_set (db : store) (db_url table_name : string)
  (contents : option frame) : store :=
  fun u t =>
    if String.eqb u db_url && String.eqb t table_name then contents else db u t.

Record world : Type := mkWorld { trace : list event; db : store }.

(** ** The monad of the program: state and exceptions *)

Inductive result (A : Type) : Type :=
| Ok (a : A)
| Raised (e : exn).
Arguments Ok {A} a.
Arguments Raised {A} e.

Definition M (A : Type) : Type := world -> result A * world.

Definition ret {A} (a : A) : M A := fun w => (Ok a, w).

Definition bind {A B} (m : M A) (k : A -> M B) : M B :=
  fun w =>
    match m w with
    | (Ok a, w') => k a w'
    | (Raised e, w') => (Raised e, w')
    end.

Definition raise {A} (e : exn) : M A := fun w => (Raised e, w).

(** [try: body except Exception as e: handler(e)] *)
Definition try_except {A} (body : M A) (handler : exn -> M A) : M A :=
  fun w =>
    match body w with
    | (Ok a, w') => (Ok a, w')
    | (Raised e, w') => handler e w'
    end.

Definition emit (e : event) : M unit :=
  fun w => (Ok tt, mkWorld (trace w ++ [e]) (db w)).

Definition print (l : line) : M unit := emit (Print l).

Declare Scope monad_scope.
Delimit Scope monad_scope with monad.
Notation "x <- c1 ;; c2" := (bind c1 (fun x => c2))
  (at level 61, c1 at next level, right associativity) : monad_scope.
Notation "c1 ;; c2" := (bind c1 (fun _ => c2))
  (at level 61, right associativity) : monad_scope.
Open Scope monad_scope.

(** [for x in xs: df = body(x, df)] over a frame updated in place. *)
Fixpoint for_each {A S} (xs : list A) (body : A -> S -> M S) (s : S) : M S :=
  match xs with
  | [] => ret s
  | x :: xs' => s' <- body x s ;; for_each xs' body s'
  end.

(** ** The program *)

(** An HTTP response as [requests] presents it. *)
Record response : Type := mkResponse {
  status_code : Z;
  reason : string;
  text : string
}.

Inductive sql_outcome : Type :=
| SqlDone
  (** the table now holds the frame *)
| SqlFailed (e : exn) (left_behind : option frame).
  (** the write raised; what the table holds afterwards is up to the store *)

Section Pipeline.

(** The world outside the program. *)

(** What [requests.get(url)] comes back with. *)
Variable http : string -> exn + response.

(** What [pd.read_csv] makes of a response body. *)
Variable csv : string -> exn + frame.

(** What [pd.to_datetime(..., errors='coerce')] makes of one value of a
    column; the column is given too, since the format is inferred from it.
    [None] is a value that cannot be parsed. *)
Variable parse_datetime : coldata -> cell -> option Z.

(** Whether [create_engine(db_url)] raises. *)
Variable engine_fault : string -> option exn.

(** How [df.to_sql(..., if_exists='replace')] ends. *)
Variable sql : string -> string -> frame -> sql_outcome.

(** The two readings of [time.ctime()] in a run. *)
Variable started finished : string.

(** *** Library calls *)

Definition requests_get (url : string) : M response :=
  emit (HttpGet url) ;;
  match http url with
  | inl e => raise e
  | inr r => ret r
  end.

(** [response.raise_for_status()]: raises [HTTPError] for 4xx and 5xx. *)
Definition raise_for_status (url : string) (r : response) : M unit :=
  if (400 <=? status_code r) && (status_code r <? 500) then
    raise (RequestException
             (string_of_Z (status_code r) ++ " Client Error: " ++ reason r
              ++ " for url: " ++ url)%string)
  else if (500 <=? status_code r) && (status_code r <? 600) then
    raise (RequestException
             (string_of_Z (status_code r) ++ " Server Error: " ++ reason r
              ++ " for url: " ++ url)%string)
  else ret tt.

Definition read_csv (body : string) : M frame :=
  match csv body with
  | inl e => raise e
  | inr df => ret df
  end.

(** [pd.to_datetime(series, errors='coerce')], where it returns a column
    of timestamps (it does not for texts with different UTC offsets). *)
Definition to_datetime (c : coldata) : coldata :=
  Datetime64 (map (parse_datetime c) (cells c)).

Definition create_engine (db_url : string) : M string :=
  emit (CreateEngine db_url) ;;
  match engine_fault db_url with
  | Some e => raise e
  | None => ret db_url
  end.

(** What the store does with the write: the table is replaced when the
    write goes through. *)
Definition replace_table (df : frame) (table_name engine : string) : M unit :=
  fun w =>
    match sql engine table_name df with
    | SqlDone =>
        (Ok tt, mkWorld (trace w) (store_set (db w) engine table_name (Some df)))
    | SqlFailed e left_behind =>
        (Raised e, mkWorld (trace w) (store_set (db w) engine table_name left_behind))
    end.

(** [df.to_sql(name=table_name, con=engine, if_exists='replace', index=False)] *)
Definition to_sql (df : frame) (table_name engine : string) : M unit :=
  emit (ToSql engine table_name df) ;;
  replace_table df table_name engine.

(** *** Extraction *)

Definition extract_data_from_url (url : string) : M (option frame) :=
  emit (Enter Fetcher) ;;
  print (LAttempt url) ;;
  try_except
    (response <- requests_get url ;;
     raise_for_status url response ;;
     df <- read_csv (text response) ;;
     print (LExtracted url) ;;
     ret (Some df))
    (fun e =>
       match e with
       | RequestException m => print (LDownloadError m) ;; ret None
       | EmptyDataError _ => print (LEmptyData url) ;; ret None
       | _ => print (LExtractUnexpected (exn_msg e)) ;; ret None
       end).

(** *** Transformation *)

(** The body of the loop over the numeric columns.  [df[col]] is a view
    of the column inside the frame, so filling it in place changes the
    frame. *)
Definition fill_mean (col : string) (df : frame) : M frame :=
  match get_col col df with
  | None => raise (KeyError col)
  | Some c =>
      if any (isnull c) then
        match c with
        | Float64 xs =>
            let df' := set_col col (Float64 (fillna_float (nanmean xs) xs)) df in
            print (LFilledMean col) ;;
            ret df'
        | _ => raise (TypeError col)
        end
      else ret df
  end.

(** The body of the loop over the object columns; [mode()[0]] raises
    [KeyError] when the column has no present value. *)
Definition fill_mode (col : string) (df : frame) : M frame :=
  match get_col col df with
  | None => raise (KeyError col)
  | Some c =>
      if any (isnull c) then
        match c with
        | Object xs =>
            match mode xs with
            | mode_val :: _ =>
                let df' := set_col col (Object (fillna_object mode_val xs)) df in
                print (LFilledMode col) ;;
                ret df'
            | [] => raise (KeyError "0")
            end
        | _ => raise (TypeError col)
        end
      else ret df
  end.

(** The duplicate-removal step, lines 69 to 72. *)
Definition remove_duplicates (df : frame) : M frame :=
  let initial_rows := len df in
  let df' := drop_duplicates df in
  (if (len df' <? initial_rows)%nat
   then print (LRemovedDuplicates (initial_rows - len df'))
   else ret tt) ;;
  ret df'.

(** The date step, lines 76 to 81. *)
Definition convert_date (df : frame) : M frame :=
  if has_column "Date" df then
    match get_col "Date" df with
    | None => raise (KeyError "Date")
    | Some c =>
        let df' := set_col "Date" (to_datetime c) df in
        match get_col "Date" df' with
        | None => raise (KeyError "Date")
        | Some c' =>
            (if any (isnull c') then print LDateWarning else print LDateConverted) ;;
            ret df'
        end
    end
  else ret df.

Definition transform_data (df : option frame) : M (option frame) :=
  emit (Enter Cleaner) ;;
  match df with
  | None => ret None
  | Some df =>
      print LTransformStart ;;
      df <- for_each (select_dtypes is_number df) fill_mean df ;;
      df <- for_each (select_dtypes is_object df) fill_mode df ;;
      df <- remove_duplicates df ;;
      df <- convert_date df ;;
      print LTransformDone ;;
      ret (Some df)
  end.

(** *** Loading *)

Definition load_data (df : option frame) (db_url table_name : string) : M unit :=
  emit (Enter Loader) ;;
  match df with
  | None => print LNoData
  | Some df =>
      try_except
        (engine <- create_engine db_url ;;
         to_sql df table_name engine ;;
         print (LLoaded table_name db_url))
        (fun e => print (LLoadError (exn_msg e)))
  end.

(** *** The pipeline *)

Definition run_etl_pipeline (data_source_url db_url table_name : string) : M unit :=
  print (LPipelineStarted started) ;;
  raw_data <- extract_data_from_url data_source_url ;;
  match raw_data with
  | None => print LAbortExtract
  | Some raw_data =>
      transformed_data <- transform_data (Some raw_data) ;;
      match transformed_data with
      | None => print LAbortTransform
      | Some transformed_data =>
          load_data (Some transformed_data) db_url table_name ;;
          print (LPipelineFinished finished)
      end
  end.

End Pipeline.

(** ** A concrete outside world, for examples *)

Module Demo.

(** Days from 1970-01-01 to a date of the proleptic Gregorian calendar. *)
Definition days_from_civil (y m d : Z) : Z :=
  let y := if m <=? 2 then y - 1 else y in
  let era := y / 400 in
  let yoe := y - era * 400 in
  let doy := (153 * (if 2 <? m then m - 3 else m + 9) + 2) / 5 + d - 1 in
  let doe := yoe * 365 + yoe / 4 - yoe / 100 + doy in
  era * 146097 + doe - 719468.

Definition is_leap (y : Z) : bool :=
  ((y mod 4 =? 0) && negb (y mod 100 =? 0)) || (y mod 400 =? 0).

Definition days_in_month (y m : Z) : Z :=
  if m =? 2 then (if is_leap y then 29 else 28)
  else if (m =? 4) || (m =? 6) || (m =? 9) || (m =? 11) then 30
  else 31.

Definition digit (a : ascii) : option Z :=
  let n := Z.of_nat (nat_of_ascii a) in
  if (48 <=? n) && (n <=? 57) then Some (n - 48) else None.

Fixpoint number (acc : Z) (ds : list ascii) : option Z :=
  match ds with
  | [] => Some acc
  | a :: ds' =>
      match digit a with
      | Some d => number (10 * acc + d) ds'
      | None => None
      end
  end.

(** Reads [YYYY-MM-DD] as midnight of that day, in nanoseconds since the
    epoch, when the date exists and the count fits 64 bits; nothing else
    is a date for this parser. *)
Definition iso_date (s : string) : option Z :=
  match list_ascii_of_string s with
  | [y1; y2; y3; y4; dash1; m1; m2; dash2; d1; d2] =>
      if Ascii.eqb dash1 "-" && Ascii.eqb dash2 "-" then
        match number 0 [y1; y2; y3; y4], number 0 [m1; m2], number 0 [d1; d2] with
        | Some y, Some m, Some d =>
            let ns := days_from_civil y m d * 86400 * 1000000000 in
            if (1 <=? m) && (m <=? 12) && (1 <=? d) && (d <=? days_in_month y m)
               && (- 2 ^ 63 <? ns) && (ns <? 2 ^ 63)
            then Some ns else None
        | _, _, _ => None
        end
      else None
  | _ => None
  end.

(** Text is a date when [iso_date] reads it, an integer is a count of
    nanoseconds, a timestamp is itself, and nothing else is a date. *)
Definition parse_datetime (c : coldata) (v : cell) : option Z :=
  match v with
  | CObj (Some s) => iso_date s
  | CInt z => if (- 2 ^ 63 <? z) && (z <? 2 ^ 63) then Some z else None
  | CTime t => t
  | _ => None
  end.

(** A server that is down. *)
Definition http_down (url : string) : exn + response :=
  inl (RequestException "connection refused").

(** A server that answers every request with the given status and body. *)
Definition http_fixed (status : Z) (body : string) (url : string) : exn + response :=
  inr (mkResponse status "" body).

(** 0.1, 0.2 and 0.3 as binary64 numbers. *)
Definition f0_1 : float64 := S754_finite false 7205759403792794 (-56).
Definition f0_2 : float64 := S754_finite false 7205759403792794 (-55).
Definition f0_3 : float64 := S754_finite false 5404319552844595 (-54).

(** The frame [read_csv] makes of ["Date,Value\nhello,10\n"]. *)
Definition one_row : frame := [("Date", Object [Some "hello"]); ("Value", Int64 [10])].

(** A reader that knows one body. *)
Definition csv_one_row (body : string) : exn + frame :=
  if String.eqb body ("Date,Value" ++ newline ++ "hello,10" ++ newline)%string
  then inr one_row
  else inl (EmptyDataError "No columns to parse from file").

(** The frame the cleaner holds after its fill loops on
    ["Date,Value\n2020-01-01,10\n,20\n2020-01-01,10\n"]. *)
Definition three_rows : frame :=
  [("Date", Object [Some "2020-01-01"; Some "2020-01-01"; Some "2020-01-01"]);
   ("Value", Int64 [10; 20; 10])].

(** A frame with no missing value, no duplicate row and no date column. *)
Definition plain : frame :=
  [("City", Object [Some "Oslo"; Some "Rome"]); ("Value", Int64 [10; 20])].

(** A frame with a gap in each of its two columns. *)
Definition measured : frame :=
  [("City", Object [Some "Rome"; None; Some "Oslo"; Some "Rome"; Some "Oslo"]);
   ("Reading", Float64 [f0_1; f0_3; F64.nan; f0_1; f0_3])].

(** Three rows with the readings 0.1, 0.3 and none. *)
Definition readings : frame :=
  [("Id", Int64 [1; 2; 3]); ("Reading", Float64 [f0_1; f0_3; F64.nan])].

Definition engine_ok (db_url : string) : option exn := None.
Definition sql_ok (db_url table_name : string) (df : frame) : sql_outcome := SqlDone.

Definition empty_store : store := fun _ _ => None.
Definition fresh : world := mkWorld [] empty_store.

End Demo.

(** ** Vocabulary of the statements *)

(** The diagnostic the three handlers of the fetcher print. *)
Definition diagnostic (url : string) (e : exn) : line :=
  match e with
  | RequestException m => LDownloadError m
  | EmptyDataError _ => LEmptyData url
  | _ => LExtractUnexpected (exn_msg e)
  end.

Definition is_diagnostic (l : line) : Prop :=
  match l with
  | LDownloadError _ | LEmptyData _ | LExtractUnexpected _ => True
  | _ => False
  end.

(** [raise_for_status] raises for these statuses and no other. *)
Definition http_error (status : Z) : bool := (400 <=? status) && (status <? 600).

(** The statuses of the class 2xx. *)
Definition http_success (status : Z) : bool := (200 <=? status) && (status <? 300).

(** What a call of the fetcher leaves in the trace, whatever happens. *)
Definition fetch_events (url : string) (last : line) : list event :=
  [Enter Fetcher; Print (LAttempt url); HttpGet url; Print last].


(** The events of a run that belong to the cleaner, to the loader or to the
    store. *)
Definition past_extraction (e : event) : bool :=
  match e with
  | Enter Cleaner | Enter Loader | CreateEngine _ | ToSql _ _ _ => true
  | _ => false
  end.

(** The number of rows a mask selects. *)
Definition count_true (mask : list bool) : nat :=
  length (filter (fun b => b) mask).

(** The representative of a binary64 number among the numbers that are the
    same key: the two zeros are one key. *)
Definition float_key (x : float64) : float64 :=
  match x with
  | S754_zero _ => S754_zero false
  | _ => x
  end.

(** *** The cleaner as a function of the frame *)

(** What the first loop makes of a column. *)
Definition mean_filled (c : coldata) : coldata :=
  match c with
  | Float64 xs =>
      if any (map F64.isnan xs) then Float64 (fillna_float (nanmean xs) xs) else c
  | _ => c
  end.

(** What the second loop makes of a column that has a mode. *)
Definition mode_filled (c : coldata) : coldata :=
  match c with
  | Object xs =>
      if any (map is_none xs) then
        match mode xs with
        | mode_val :: _ => Object (fillna_object mode_val xs)
        | [] => c
        end
      else c
  | _ => c
  end.

Definition on_columns (g : coldata -> coldata) (df : frame) : frame :=
  map (fun c => (fst c, g (snd c))) df.

Definition mean_events (df : frame) : list event :=
  flat_map (fun c => if is_number (snd c) && any (isnull (snd c))
                     then [Print (LFilledMean (fst c))] else []) df.

Definition mode_events (df : frame) : list event :=
  flat_map (fun c => if is_object (snd c) && any (isnull (snd c))
                     then [Print (LFilledMode (fst c))] else []) df.

(** An object column with a missing value has a present value too;
    [read_csv] types a column with no present value as float64. *)
Definition has_mode (c : coldata) : bool :=
  match c with
  | Object xs => negb (any (map is_none xs)) || existsb (fun o => negb (is_none o)) xs
  | _ => true
  end.

Definition imputable (df : frame) : bool := forallb (fun c => has_mode (snd c)) df.

(** Ascending in the order of strings. *)
Definition ascending : list string -> Prop :=
  StronglySorted (fun a b => String.leb a b = true).

Definition duplicate_events (df : frame) : list event :=
  if (len (drop_duplicates df) <? len df)%nat
  then [Print (LRemovedDuplicates (len df - len (drop_duplicates df)))]
  else [].

Section Cleaned.

Variable parse_datetime : coldata -> cell -> option Z.

(** What the date step makes of a frame. *)
Definition date_converted (df : frame) : frame :=
  match get_col "Date" df with
  | Some c => set_col "Date" (to_datetime parse_datetime c) df
  | None => df
  end.

Definition date_events (df : frame) : list event :=
  match get_col "Date" df with
  | Some c =>
      [Print (if any (isnull (to_datetime parse_datetime c))
              then LDateWarning else LDateConverted)]
  | None => []
  end.

(** The frame the cleaner returns, and what it prints on the way. *)
Definition cleaned (df : frame) : frame :=
  date_converted
    (drop_duplicates (on_columns mode_filled (on_columns mean_filled df))).

Definition cleaning_events (df : frame) : list event :=
  let filled := on_columns mean_filled df in
  let imputed := on_columns mode_filled filled in
  mean_events df ++ mode_events filled ++ duplicate_events imputed
  ++ date_events (drop_duplicates imputed).

End Cleaned.

(** *** A logic of runs *)

(** Every run of [m] appends events that satisfy [P] to the trace, and a
    value it returns satisfies [Q]. *)
Definition satisfies {A} (m : M A) (P : event -> Prop) (Q : A -> Prop) : Prop :=
  forall w,
    (exists evs, trace (snd (m w)) = trace w ++ evs /\ Forall P evs)
    /\ match fst (m w) with
       | Ok a => Q a
       | Raised _ => True
       end.

Definition anything {A} (a : A) : Prop := True.

(** Every event but the abort-at-transform line. *)
Definition not_abort_transform (e : event) : Prop := e <> Print LAbortTransform.

(** No value of the frame is missing. *)
Definition complete (df : frame) : bool :=
  forallb (fun c => negb (any (isnull (snd c)))) df.

(** The rows the duplicate-removal step keeps of the frame that the two
    fill loops leave. *)
Definition kept_rows (df : frame) : list bool :=
  map negb (duplicated (on_columns mode_filled (on_columns mean_filled df))).

(** Row [i] of the rows has, in every column, the value of a row above it. *)
Definition repeats_earlier (rs : list row) (i : nat) : bool :=
  existsb (row_eqb (nth i rs [])) (firstn i rs).

(** The positions of the rows that repeat no row above them, top to
    bottom. *)
Definition first_occurrences (rs : list row) : list nat :=
  filter (fun i => negb (repeats_earlier rs i)) (seq 0 (length rs)).

(** The number of rows that repeat a row above them. *)
Definition repeated_rows (rs : list row) : nat :=
  length (filter (repeats_earlier rs) (seq 0 (length rs))).
(** ** Vocabulary of the further statements *)

Definition is_print (e : event) : bool :=
  match e with Print _ => true | _ => false end.

Definition is_request (e : event) : bool :=
  match e with HttpGet _ => true | _ => false end.

(** Every table but the one of this connection string and name. *)
Definition elsewhere (db_url table_name u t : string) : bool :=
  negb (String.eqb u db_url && String.eqb t table_name).

(** Two states of the stores that differ in one table at most. *)
Definition same_elsewhere (db_url table_name : string) (s s' : store) : Prop :=
  forall u t, elsewhere db_url table_name u t = true -> s' u t = s u t.

(** An event that is no request and no write to another table. *)
Definition confined (db_url table_name : string) (e : event) : Prop :=
  is_request e = false
  /\ forall u t df, e = ToSql u t df -> u = db_url /\ t = table_name.

(** Every run of [m] takes the stores from a state to one related by [R]. *)
Definition frames {A} (m : M A) (R : store -> store -> Prop) : Prop :=
  forall w, R (db w) (db (snd (m w))).

Section LoaderVocabulary.

Variable engine_fault : string -> option exn.
Variable sql : string -> string -> frame -> sql_outcome.

(** What a call of the loader on a frame leaves in the trace. *)
Definition load_events (df : frame) (db_url table_name : string) : list event :=
  Enter Loader :: CreateEngine db_url ::
  match engine_fault db_url with
  | Some e => [Print (LLoadError (exn_msg e))]
  | None =>
      ToSql db_url table_name df ::
      match sql db_url table_name df with
      | SqlDone => [Print (LLoaded table_name db_url)]
      | SqlFailed e _ => [Print (LLoadError (exn_msg e))]
      end
  end.

(** The stores after a call of the loader on a frame. *)
Definition loaded_store (df : frame) (db_url table_name : string) (s : store) : store :=
  match engine_fault db_url with
  | Some _ => s
  | None =>
      match sql db_url table_name df with
      | SqlDone => store_set s db_url table_name (Some df)
      | SqlFailed _ left_behind => store_set s db_url table_name left_behind
      end
  end.

End LoaderVocabulary.

(** Every frame the reader makes has distinct labels and a present value
    in each object column that has a missing one. *)
Definition reads_typed_frames (csv : string -> exn + frame) : Prop :=
  forall body df,
    csv body = inr df -> unique_labels (columns df) = true /\ imputable df = true.

(** Every frame the reader makes has distinct labels, as [read_csv] makes
    them: it renames a label that comes again. *)
Definition reads_distinct_labels (csv : string -> exn + frame) : Prop :=
  forall body df, csv body = inr df -> unique_labels (columns df) = true.

(** Outside worlds with faults, for examples. *)
Module Faults.

Definition engine_refused (db_url : string) : option exn :=
  Some (OtherException "Could not parse SQLAlchemy URL").

Definition disk_full (db_url table_name : string) (df : frame) : sql_outcome :=
  SqlFailed (OtherException "database or disk is full") None.

(** A frame no CSV text gives: an object column without any value. *)
Definition hollow : frame := [("City", Object [None; None]); ("Value", Int64 [1; 2])].

Definition csv_hollow (body : string) : exn + frame := inr hollow.

(** A float column without any value, as [read_csv] types an empty column. *)
Definition blank : frame :=
  [("Id", Int64 [1; 2]); ("Reading", Float64 [F64.nan; F64.nan])].

(** A store with a table in it. *)
Definition stocked : store :=
  store_set (store_set Demo.empty_store "sqlite:///health_data.db" "processed_health_stats"
               (Some Demo.three_rows))
    "sqlite:///other.db" "notes" (Some Demo.plain).

End Faults.

(** A server that answers every request with status 200 and an empty body. *)
Definition http_ok (url : string) : exn + response := inr (mkResponse 200 "OK" "").

(** The frame the two fill loops leave. *)
Definition imputed (df : frame) : frame :=
  on_columns mode_filled (on_columns mean_filled df).

(** * Properties *)

(** ** The sentinel *)

(** C6. The cleaner given the "no data" sentinel returns it; it prints
    nothing, touches no store and raises nothing: all a run records is that
    the function was entered. *)
Theorem transform_data_sentinel :
  forall parse_datetime w,
    transform_data parse_datetime None w
    = (Ok None, mkWorld (trace w ++ [Enter Cleaner]) (db w)).
Proof. intros p w. reflexivity. Qed.

(** C7. The loader given the sentinel prints that there is nothing to load
    and returns: it creates no engine, issues no write and leaves every
    table as it was. *)
Theorem load_data_sentinel :
  forall engine_fault sql db_url table_name w,
    load_data engine_fault sql None db_url table_name w
    = (Ok tt, mkWorld (trace w ++ [Enter Loader; Print LNoData]) (db w)).
Proof.
  intros ef sql u t w. unfold load_data, bind, emit, print, emit. simpl.
  now rewrite <- app_assoc.
Qed.

(** ** The fetcher *)

Lemma diagnostic_is_diagnostic url e : is_diagnostic (diagnostic url e).
Proof. destruct e; exact I. Qed.

Lemma raise_for_status_error url r w :
  http_error (status_code r) = true ->
  exists m, raise_for_status url r w = (Raised (RequestException m), w).
Proof.
  unfold http_error, raise_for_status. intros H.
  destruct (Z.leb_spec 400 (status_code r)), (Z.ltb_spec (status_code r) 500),
    (Z.leb_spec 500 (status_code r)), (Z.ltb_spec (status_code r) 600);
    simpl in *; try discriminate; try lia; eexists; reflexivity.
Qed.

Lemma raise_for_status_pass url r w :
  http_error (status_code r) = false ->
  raise_for_status url r w = (Ok tt, w).
Proof.
  unfold http_error, raise_for_status. intros H.
  destruct (Z.leb_spec 400 (status_code r)), (Z.ltb_spec (status_code r) 500),
    (Z.leb_spec 500 (status_code r)), (Z.ltb_spec (status_code r) 600);
    simpl in *; try discriminate; try lia; reflexivity.
Qed.

Section Fetcher.

Variable http : string -> exn + response.
Variable csv : string -> exn + frame.

Lemma extract_data_from_url_failed_request url w e :
  http url = inl e ->
  extract_data_from_url http csv url w
  = (Ok None, mkWorld (trace w ++ fetch_events url (diagnostic url e)) (db w)).
Proof.
  intros H. unfold extract_data_from_url, bind, try_except, requests_get, print, emit, bind.
  simpl. rewrite H. unfold raise.
  destruct e; simpl; rewrite <- !app_assoc; reflexivity.
Qed.

Lemma extract_data_from_url_error_status url w r :
  http url = inr r -> http_error (status_code r) = true ->
  exists m,
    extract_data_from_url http csv url w
    = (Ok None, mkWorld (trace w ++ fetch_events url (LDownloadError m)) (db w)).
Proof.
  intros H E. unfold extract_data_from_url, bind, try_except, requests_get, print, emit, bind.
  simpl. rewrite H. unfold ret at 1.
  match goal with |- context [raise_for_status url r ?w'] =>
    destruct (raise_for_status_error url r w' E) as [m Hm]; rewrite Hm end.
  exists m. simpl. rewrite <- !app_assoc. reflexivity.
Qed.

Lemma extract_data_from_url_unreadable url w r e :
  http url = inr r -> http_error (status_code r) = false -> csv (text r) = inl e ->
  extract_data_from_url http csv url w
  = (Ok None, mkWorld (trace w ++ fetch_events url (diagnostic url e)) (db w)).
Proof.
  intros H E C. unfold extract_data_from_url, bind, try_except, requests_get, print, emit, bind.
  simpl. rewrite H. unfold ret at 1.
  rewrite raise_for_status_pass by exact E.
  unfold read_csv. rewrite C. unfold raise.
  destruct e; simpl; rewrite <- !app_assoc; reflexivity.
Qed.

Lemma extract_data_from_url_parsed url w r df :
  http url = inr r -> http_error (status_code r) = false -> csv (text r) = inr df ->
  extract_data_from_url http csv url w
  = (Ok (Some df), mkWorld (trace w ++ fetch_events url (LExtracted url)) (db w)).
Proof.
  intros H E C. unfold extract_data_from_url, bind, try_except, requests_get, print, emit, bind.
  simpl. rewrite H. unfold ret at 1.
  rewrite raise_for_status_pass by exact E.
  unfold read_csv. rewrite C. unfold ret. simpl. rewrite <- !app_assoc. reflexivity.
Qed.

(** The four ways a call of the fetcher can go. *)
Lemma extract_data_from_url_cases :
  forall url w, exists r l,
    extract_data_from_url http csv url w
    = (Ok r, mkWorld (trace w ++ fetch_events url l) (db w))
    /\ ((exists resp df,
            http url = inr resp /\ http_error (status_code resp) = false
            /\ csv (text resp) = inr df /\ r = Some df /\ l = LExtracted url)
        \/ (r = None /\ is_diagnostic l
            /\ ((exists e, http url = inl e)
                \/ exists resp, http url = inr resp
                     /\ (http_error (status_code resp) = true
                         \/ exists e, csv (text resp) = inl e)))).
Proof.
  intros url w.
  destruct (http url) as [e | resp] eqn:H.
  - exists None, (diagnostic url e). split.
    + now apply extract_data_from_url_failed_request.
    + right. split; [reflexivity |]. split; [apply diagnostic_is_diagnostic |].
      left. now exists e.
  - destruct (http_error (status_code resp)) eqn:E.
    + destruct (extract_data_from_url_error_status url w resp H E) as [m Hm].
      exists None, (LDownloadError m). split; [exact Hm |].
      right. split; [reflexivity |]. split; [exact I |].
      right. exists resp. auto.
    + destruct (csv (text resp)) as [e | df] eqn:C.
      * exists None, (diagnostic url e). split.
        -- now apply extract_data_from_url_unreadable with resp.
        -- right. split; [reflexivity |]. split; [apply diagnostic_is_diagnostic |].
           right. exists resp. split; [reflexivity |]. right. now exists e.
      * exists (Some df), (LExtracted url). split.
        -- now apply extract_data_from_url_parsed with resp.
        -- left. exists resp, df. auto.
Qed.

(** C9, amended.  The fetcher never raises.  It returns the frame parsed
    from the body when the request is answered, the status is not an error
    status (4xx or 5xx) and the body parses; in every other case it prints
    one diagnostic and returns the sentinel.  Either way it calls
    [requests.get] once, prints two lines and leaves the stores alone. *)
Theorem extract_data_from_url_absorbs :
  forall url w, exists r l,
    extract_data_from_url http csv url w
    = (Ok r, mkWorld (trace w ++ fetch_events url l) (db w))
    /\ ((exists resp df,
            http url = inr resp /\ http_error (status_code resp) = false
            /\ csv (text resp) = inr df /\ r = Some df /\ l = LExtracted url)
        \/ (r = None /\ is_diagnostic l
            /\ ((exists e, http url = inl e)
                \/ exists resp, http url = inr resp
                     /\ (http_error (status_code resp) = true
                         \/ exists e, csv (text resp) = inl e)))).
Proof. exact extract_data_from_url_cases. Qed.

(** The result of the fetcher depends on the outside world only. *)
Lemma extract_data_from_url_result url w w' :
  fst (extract_data_from_url http csv url w)
  = fst (extract_data_from_url http csv url w').
Proof.
  destruct (http url) as [e | resp] eqn:H.
  - now rewrite !extract_data_from_url_failed_request with (e := e).
  - destruct (http_error (status_code resp)) eqn:E.
    + destruct (extract_data_from_url_error_status url w resp H E) as [m ->].
      destruct (extract_data_from_url_error_status url w' resp H E) as [m' ->].
      reflexivity.
    + destruct (csv (text resp)) as [e | df] eqn:C.
      * now rewrite !extract_data_from_url_unreadable with (r := resp) (e := e).
      * now rewrite !extract_data_from_url_parsed with (r := resp) (df := df).
Qed.

End Fetcher.

(** C9 as stated fails: a response whose status is outside the class 2xx
    without being an error status goes through [raise_for_status], and its
    body is parsed and returned. *)
Lemma extract_data_from_url_status_300 :
  let body := ("Date,Value" ++ newline ++ "hello,10" ++ newline)%string in
  http_success 300 = false
  /\ fst (extract_data_from_url (Demo.http_fixed 300 body) Demo.csv_one_row
            "http://host/data.csv" Demo.fresh)
     = Ok (Some Demo.one_row).
Proof. split; reflexivity. Qed.

(** ** The pipeline, when extraction fails *)

Section AbortAtExtract.

Variable http : string -> exn + response.
Variable csv : string -> exn + frame.
Variable parse_datetime : coldata -> cell -> option Z.
Variable engine_fault : string -> option exn.
Variable sql : string -> string -> frame -> sql_outcome.
Variable started finished : string.

(** C8. When the fetcher returns the sentinel, the run prints the reason
    of the fetcher and the abort-at-extract line and ends there: the trace
    of the run holds no entry into the cleaner or the loader, no engine and
    no table write, and every table is as it was. *)
Theorem run_etl_pipeline_aborts_at_extract :
  forall data_source_url db_url table_name w,
    fst (extract_data_from_url http csv data_source_url w) = Ok None ->
    exists l evs,
      is_diagnostic l
      /\ evs = Print (LPipelineStarted started)
               :: fetch_events data_source_url l ++ [Print LAbortExtract]
      /\ run_etl_pipeline http csv parse_datetime engine_fault sql started finished
           data_source_url db_url table_name w
         = (Ok tt, mkWorld (trace w ++ evs) (db w))
      /\ forallb (fun e => negb (past_extraction e)) evs = true.
Proof.
  intros url db_url table_name w Hnone.
  set (w1 := mkWorld (trace w ++ [Print (LPipelineStarted started)]) (db w)).
  rewrite (extract_data_from_url_result http csv url w w1) in Hnone.
  destruct (extract_data_from_url_cases http csv url w1) as (r & l & Hrun & Hcases).
  rewrite Hrun in Hnone. simpl in Hnone. injection Hnone as ->.
  destruct Hcases as [(resp & df & _ & _ & _ & Hr & _) | (_ & Hl & _)];
    [discriminate Hr |].
  exists l, (Print (LPipelineStarted started) :: fetch_events url l ++ [Print LAbortExtract]).
  split; [exact Hl |]. split; [reflexivity |]. split.
  - unfold run_etl_pipeline, bind, print, emit. simpl. fold w1.
    rewrite Hrun. simpl. rewrite <- !app_assoc. reflexivity.
  - simpl. reflexivity.
Qed.

End AbortAtExtract.

(** C8 at a server that is down. *)
Lemma run_etl_pipeline_aborts_at_extract_witness :
  exists l evs,
    is_diagnostic l
    /\ evs = Print (LPipelineStarted "Mon Jan  1 06:40:00 2024")
             :: fetch_events "http://host/data.csv" l ++ [Print LAbortExtract]
    /\ run_etl_pipeline Demo.http_down Demo.csv_one_row Demo.parse_datetime
         Demo.engine_ok Demo.sql_ok
         "Mon Jan  1 06:40:00 2024" "Mon Jan  1 06:40:01 2024"
         "http://host/data.csv" "sqlite:///health_data.db" "processed_health_stats"
         Demo.fresh
       = (Ok tt, mkWorld (trace Demo.fresh ++ evs) (db Demo.fresh))
    /\ forallb (fun e => negb (past_extraction e)) evs = true.
Proof.
  apply (run_etl_pipeline_aborts_at_extract Demo.http_down Demo.csv_one_row
           Demo.parse_datetime Demo.engine_ok Demo.sql_ok
           "Mon Jan  1 06:40:00 2024" "Mon Jan  1 06:40:01 2024"
           "http://host/data.csv" "sqlite:///health_data.db" "processed_health_stats"
           Demo.fresh).
  reflexivity.
Defined.

(** ** Keys of the duplicate table *)

Lemma pos_compare_cont_eq p q : Pos.compare_cont Eq p q = Eq -> p = q.
Proof. apply Pos.compare_eq. Qed.

Lemma finite_compare_eq (mx my : positive) (ex ey : Z) (flip : bool) :
  match
    match (ex ?= ey)%Z with
    | Eq => if flip then CompOpp (Pos.compare_cont Eq mx my)
            else Pos.compare_cont Eq mx my
    | Lt => if flip then Gt else Lt
    | Gt => if flip then Lt else Gt
    end
  with Eq => true | _ => false end = true
  <-> mx = my /\ ex = ey.
Proof.
  destruct (Z.compare_spec ex ey) as [-> | Hlt | Hgt].
  - destruct (Pos.compare_cont Eq mx my) eqn:C.
    + apply Pos.compare_eq in C. subst. destruct flip; simpl; tauto.
    + assert (mx <> my) by (intros ->; rewrite Pos.compare_cont_refl in C; discriminate).
      destruct flip; simpl; split; try discriminate; tauto.
    + assert (mx <> my) by (intros ->; rewrite Pos.compare_cont_refl in C; discriminate).
      destruct flip; simpl; split; try discriminate; tauto.
  - destruct flip; split; try discriminate; intros [_ ->]; lia.
  - destruct flip; split; try discriminate; intros [_ ->]; lia.
Qed.

Lemma key_eqb_float_key x y :
  F64.key_eqb x y = true <-> float_key x = float_key y.
Proof.
  unfold F64.key_eqb, F64.eqb, SFeqb, F64.isnan.
  destruct x as [sx | sx | | sx mx ex], y as [sy | sy | | sy my ey];
    try destruct sx; try destruct sy; simpl;
    first [ split; reflexivity | split; discriminate | idtac ].
  - rewrite orb_false_r.
    pose proof (finite_compare_eq mx my ex ey true) as H. simpl in H.
    destruct (ex ?= ey)%Z; rewrite H; split;
      intros E; try (destruct E; subst; reflexivity);
      injection E; tauto.
  - rewrite orb_false_r.
    pose proof (finite_compare_eq mx my ex ey false) as H. simpl in H.
    destruct (ex ?= ey)%Z; rewrite H; split;
      intros E; try (destruct E; subst; reflexivity);
      injection E; tauto.
Qed.

Lemma option_eqb_trans {A} (eqb : A -> A -> bool) :
  (forall x y z, eqb x y = true -> eqb y z = true -> eqb x z = true) ->
  forall a b c,
    option_eqb eqb a b = true -> option_eqb eqb b c = true -> option_eqb eqb a c = true.
Proof.
  intros T [x |] [y |] [z |]; simpl; try discriminate; auto. apply T.
Qed.

Lemma cell_eqb_trans a b c :
  cell_eqb a b = true -> cell_eqb b c = true -> cell_eqb a c = true.
Proof.
  destruct a, b, c; simpl; try discriminate.
  - rewrite !Z.eqb_eq. congruence.
  - rewrite !key_eqb_float_key. congruence.
  - rewrite !Bool.eqb_true_iff. congruence.
  - apply option_eqb_trans. intros x y z. rewrite !String.eqb_eq. congruence.
  - apply option_eqb_trans. intros x y z. rewrite !Z.eqb_eq. congruence.
Qed.

Lemma row_eqb_trans r : forall s t,
  row_eqb r s = true -> row_eqb s t = true -> row_eqb r t = true.
Proof.
  induction r as [| a r IH]; intros [| b s] [| c t]; simpl; try discriminate; auto.
  rewrite !andb_true_iff. intros [H1 H2] [H3 H4]. split.
  - now apply cell_eqb_trans with b.
  - now apply IH with s.
Qed.

Lemma cell_eqb_sym a b : cell_eqb a b = cell_eqb b a.
Proof.
  destruct a, b; simpl; try reflexivity.
  - apply Z.eqb_sym.
  - apply eq_true_iff_eq. rewrite !key_eqb_float_key. split; congruence.
  - destruct b, b0; reflexivity.
  - destruct o, o0; simpl; try reflexivity. apply String.eqb_sym.
  - destruct t, t0; simpl; try reflexivity. apply Z.eqb_sym.
Qed.

Lemma row_eqb_sym r : forall s, row_eqb r s = row_eqb s r.
Proof.
  induction r as [| a r IH]; intros [| b s]; simpl; try reflexivity.
  now rewrite cell_eqb_sym, IH.
Qed.

(** ** Mask selection *)

Lemma select_nil_r {A} (mask : list bool) : select mask (@nil A) = [].
Proof. destruct mask; reflexivity. Qed.

Lemma select_map {A B} (f : A -> B) mask : forall xs,
  select mask (map f xs) = map f (select mask xs).
Proof.
  induction mask as [| b mask IH]; intros [| x xs]; simpl; try reflexivity.
  destruct b; simpl; now rewrite IH.
Qed.

Lemma zip_with_nil_r {A B C} (f : A -> B -> C) l : zip_with f l [] = [].
Proof. destruct l; reflexivity. Qed.

Lemma select_zip_with {A B C} (f : A -> B -> C) mask : forall l l',
  select mask (zip_with f l l') = zip_with f (select mask l) (select mask l').
Proof.
  induction mask as [| b mask IH]; intros [| x l] [| y l']; simpl; try reflexivity.
  - destruct b; simpl; now rewrite ?zip_with_nil_r.
  - destruct b; simpl; now rewrite IH.
Qed.

Lemma select_repeat {A} (x : A) mask :
  select mask (repeat x (length mask)) = repeat x (count_true mask).
Proof.
  induction mask as [| b mask IH]; simpl; [reflexivity |].
  destruct b; unfold count_true in *; simpl; now rewrite IH.
Qed.

Lemma select_length {A} mask : forall xs : list A,
  (length mask <= length xs)%nat -> length (select mask xs) = count_true mask.
Proof.
  induction mask as [| b mask IH]; intros [| x xs] H; simpl in *; try reflexivity; try lia.
  destruct b; unfold count_true in *; simpl; rewrite IH by lia; reflexivity.
Qed.

Lemma select_length_le {A} mask : forall xs : list A,
  (length (select mask xs) <= count_true mask)%nat.
Proof.
  induction mask as [| b mask IH]; intros [| x xs]; unfold count_true in *; simpl; try lia.
  destruct b; simpl; specialize (IH xs); lia.
Qed.

Lemma select_all {A} k : forall xs : list A,
  (length xs <= k)%nat -> select (repeat true k) xs = xs.
Proof.
  induction k as [| k IH]; intros [| x xs] H; simpl in *; try reflexivity; try lia.
  now rewrite IH by lia.
Qed.

Lemma count_true_le mask : (count_true mask <= length mask)%nat.
Proof. unfold count_true. induction mask as [| [] ? ?]; simpl; lia. Qed.

(** ** Rows of a selection *)

Lemma cells_col_select mask c : cells (col_select mask c) = select mask (cells c).
Proof. destruct c; simpl; now rewrite select_map. Qed.

Lemma col_len_cells c : col_len c = length (cells c).
Proof. destruct c; simpl; now rewrite length_map. Qed.

Lemma zip_with_length {A B C} (f : A -> B -> C) : forall l l',
  length (zip_with f l l') = Nat.min (length l) (length l').
Proof. induction l as [| x l IH]; intros [| y l']; simpl; auto. Qed.

Lemma rows_of_length n df :
  forallb (fun c => Nat.eqb (col_len (snd c)) n) df = true ->
  length (rows_of n df) = n.
Proof.
  induction df as [| [name c] df IH]; simpl.
  - intros _. apply repeat_length.
  - rewrite andb_true_iff, Nat.eqb_eq. intros [Hc Hdf].
    specialize (IH Hdf). unfold row in *.
    rewrite zip_with_length, IH, <- col_len_cells, Hc. lia.
Qed.

Lemma rows_length df : aligned df = true -> length (rows df) = len df.
Proof. intros H. now apply rows_of_length. Qed.

Lemma rows_of_frame_select mask df :
  rows_of (count_true mask) (frame_select mask df)
  = select mask (rows_of (length mask) df).
Proof.
  induction df as [| [name c] df IH]; simpl.
  - now rewrite select_repeat.
  - now rewrite IH, cells_col_select, select_zip_with.
Qed.

Lemma len_frame_select mask df :
  aligned df = true -> length mask = len df ->
  len (frame_select mask df) = count_true mask.
Proof.
  destruct df as [| [name c] df]; simpl.
  - intros _ H. destruct mask; [reflexivity | discriminate].
  - intros _ H. rewrite col_len_cells, cells_col_select.
    apply select_length. rewrite <- col_len_cells. lia.
Qed.

Lemma rows_frame_select mask df :
  aligned df = true -> length mask = len df ->
  rows (frame_select mask df) = select mask (rows df).
Proof.
  intros Ha Hm. unfold rows.
  now rewrite len_frame_select, rows_of_frame_select, Hm.
Qed.

Lemma aligned_frame_select mask df :
  aligned df = true -> length mask = len df ->
  aligned (frame_select mask df) = true.
Proof.
  intros Ha Hm. unfold aligned. rewrite len_frame_select by assumption.
  unfold aligned in Ha. rewrite forallb_forall in *.
  intros [name c] Hin. unfold frame_select in Hin. apply in_map_iff in Hin.
  destruct Hin as ([name' c'] & Heq & Hin). simpl in Heq. injection Heq as <- <-.
  specialize (Ha _ Hin). simpl in *. apply Nat.eqb_eq in Ha. apply Nat.eqb_eq.
  rewrite col_len_cells, cells_col_select. apply select_length.
  rewrite <- col_len_cells. lia.
Qed.

Lemma columns_frame_select mask df : columns (frame_select mask df) = columns df.
Proof.
  unfold columns, frame_select. rewrite map_map. reflexivity.
Qed.

Lemma frame_select_all k df :
  forallb (fun c => Nat.leb (col_len (snd c)) k) df = true ->
  frame_select (repeat true k) df = df.
Proof.
  induction df as [| [name c] df IH]; simpl; [reflexivity |].
  rewrite andb_true_iff, Nat.leb_le. intros [Hc Hdf].
  rewrite IH by exact Hdf. f_equal. f_equal.
  destruct c; simpl in *; now rewrite select_all.
Qed.

(** ** The duplicate mask *)

Lemma duplicated_from_length rs : forall seen,
  length (duplicated_from seen rs) = length rs.
Proof.
  induction rs as [| r rs IH]; intros seen; simpl; [reflexivity |].
  destruct (existsb (row_eqb r) seen); simpl; now rewrite IH.
Qed.

(** The table of rows seen answers as the list of all earlier rows would. *)
Lemma duplicated_from_earlier rs : forall seen earlier i,
  (forall r, existsb (row_eqb r) seen = existsb (row_eqb r) earlier) ->
  (i < length rs)%nat ->
  nth i (duplicated_from seen rs) false
  = existsb (row_eqb (nth i rs [])) (earlier ++ firstn i rs).
Proof.
  induction rs as [| r rs IH]; intros seen earlier i Hsame Hi; simpl in Hi; [lia |].
  destruct i as [| i].
  - simpl. rewrite app_nil_r, <- Hsame.
    destruct (existsb (row_eqb r) seen); reflexivity.
  - assert (Hstep : nth (S i) (duplicated_from seen (r :: rs)) false
                    = nth i (duplicated_from
                               (if existsb (row_eqb r) seen then seen else r :: seen) rs)
                        false).
    { simpl. destruct (existsb (row_eqb r) seen); reflexivity. }
    rewrite Hstep. clear Hstep.
    rewrite (IH _ (earlier ++ [r]) i); [| | lia].
    + simpl. now rewrite <- app_assoc.
    + intros r'. rewrite existsb_app. simpl. rewrite orb_false_r, <- Hsame.
      destruct (existsb (row_eqb r) seen) eqn:E.
      * destruct (row_eqb r' r) eqn:E'; [| now rewrite orb_false_r].
        rewrite orb_true_r. apply existsb_exists in E. destruct E as (s & Hs & Ers).
        apply existsb_exists. exists s. split; [exact Hs |].
        now apply row_eqb_trans with r.
      * simpl. apply orb_comm.
Qed.

(** After the selection no row is flagged any more. *)
Lemma duplicated_from_settled rs : forall seen,
  let kept := select (map negb (duplicated_from seen rs)) rs in
  duplicated_from seen kept = repeat false (length kept).
Proof.
  induction rs as [| r rs IH]; intros seen; simpl; [reflexivity |].
  destruct (existsb (row_eqb r) seen) eqn:E; simpl.
  - apply IH.
  - rewrite E. f_equal. apply IH.
Qed.

(** ** Duplicate removal *)

Lemma duplicated_length df : aligned df = true -> length (duplicated df) = len df.
Proof.
  intros H. unfold duplicated. now rewrite duplicated_from_length, rows_length.
Qed.

Lemma drop_duplicates_settled df :
  aligned df = true -> drop_duplicates (drop_duplicates df) = drop_duplicates df.
Proof.
  intros Ha.
  pose proof (duplicated_length df Ha) as Hlen.
  assert (Hmask : length (map negb (duplicated df)) = len df) by now rewrite length_map.
  unfold drop_duplicates at 1. unfold duplicated at 1.
  unfold drop_duplicates at 1 2.
  rewrite rows_frame_select by assumption.
  unfold duplicated at 1 2.
  rewrite duplicated_from_settled.
  rewrite map_repeat. simpl.
  apply frame_select_all.
  pose proof (aligned_frame_select _ _ Ha Hmask) as Ha'.
  unfold aligned in Ha'. rewrite forallb_forall in *.
  intros c Hc. specialize (Ha' c Hc). apply Nat.eqb_eq in Ha'. apply Nat.leb_le.
  rewrite Ha', len_frame_select by assumption.
  fold (duplicated df).
  rewrite select_length; [lia |].
  rewrite rows_length by assumption. lia.
Qed.

Example drop_duplicates_three_rows :
  drop_duplicates Demo.three_rows
  = [("Date", Object [Some "2020-01-01"; Some "2020-01-01"]); ("Value", Int64 [10; 20])].
Proof. reflexivity. Qed.

(** The step of the cleaner returns [drop_duplicates df] and prints the
    number of rows removed when there are any. *)
Lemma remove_duplicates_run df w :
  remove_duplicates df w
  = (Ok (drop_duplicates df),
     mkWorld
       (trace w ++
        if (len (drop_duplicates df) <? len df)%nat
        then [Print (LRemovedDuplicates (len df - len (drop_duplicates df)))]
        else [])
       (db w)).
Proof.
  unfold remove_duplicates, bind, print, emit, ret.
  destruct (len (drop_duplicates df) <? len df)%nat; simpl.
  - reflexivity.
  - rewrite app_nil_r. now destruct w.
Qed.

(** ** Frames with distinct labels *)

Lemma unique_labels_NoDup ls : unique_labels ls = true <-> NoDup ls.
Proof.
  induction ls as [| l ls IH]; simpl.
  - split; [constructor | reflexivity].
  - rewrite andb_true_iff, negb_true_iff, IH. split.
    + intros [Hn Hd]. constructor; [| exact Hd].
      intros Hin. assert (existsb (String.eqb l) ls = true); [| congruence].
      apply existsb_exists. exists l. split; [exact Hin | apply String.eqb_refl].
    + intros H. inversion H as [| ? ? Hn Hd]; subst. split; [| exact Hd].
      destruct (existsb (String.eqb l) ls) eqn:E; [| reflexivity].
      apply existsb_exists in E. destruct E as (x & Hx & Ex).
      apply String.eqb_eq in Ex. subst. contradiction.
Qed.

Lemma get_col_middle (a b : frame) (c : column) :
  ~ In (fst c) (columns a) -> get_col (fst c) (a ++ c :: b) = Some (snd c).
Proof.
  unfold get_col. induction a as [| x a IH]; simpl; intros H.
  - now rewrite String.eqb_refl.
  - destruct (String.eqb_spec (fst c) (fst x)) as [E | E].
    + exfalso. apply H. left. now symmetry.
    + apply IH. intros Hin. apply H. now right.
Qed.

Lemma set_col_cons name v (x : column) (df : frame) :
  set_col name v (x :: df)
  = (if String.eqb name (fst x) then (fst x, v) else x) :: set_col name v df.
Proof. reflexivity. Qed.

Lemma set_col_absent name v (df : frame) :
  ~ In name (columns df) -> set_col name v df = df.
Proof.
  induction df as [| x df IH]; intros H; [reflexivity |].
  rewrite set_col_cons.
  destruct (String.eqb_spec name (fst x)) as [E | E].
  - exfalso. apply H. left. now symmetry.
  - f_equal. apply IH. intros Hin. apply H. now right.
Qed.

Lemma set_col_middle (a b : frame) (c : column) v :
  ~ In (fst c) (columns a) -> ~ In (fst c) (columns b) ->
  set_col (fst c) v (a ++ c :: b) = a ++ (fst c, v) :: b.
Proof.
  intros Ha Hb. induction a as [| x a IH].
  - cbn [app]. rewrite set_col_cons, String.eqb_refl, set_col_absent by exact Hb.
    reflexivity.
  - cbn [app]. rewrite set_col_cons.
    destruct (String.eqb_spec (fst c) (fst x)) as [E | E].
    + exfalso. apply Ha. left. now symmetry.
    + f_equal. apply IH. intros Hin. apply Ha. now right.
Qed.

Lemma NoDup_columns_middle (a b : frame) (c : column) :
  NoDup (columns (a ++ c :: b)) ->
  ~ In (fst c) (columns a) /\ ~ In (fst c) (columns b).
Proof.
  unfold columns. rewrite map_app. simpl. intros H.
  apply NoDup_remove_2 in H. split; intros Hin; apply H, in_or_app; auto.
Qed.

(** ** Loops over selected columns *)

Section ColumnLoop.

Variable body : string -> frame -> M frame.
Variable sel : coldata -> bool.
Variable ok : coldata -> bool.
Variable g : coldata -> coldata.
Variable evs : string -> coldata -> list event.

(** On a selected column the body rewrites that column and nothing else. *)
Hypothesis body_step :
  forall a c b w,
    NoDup (columns (a ++ c :: b)) -> sel (snd c) = true -> ok (snd c) = true ->
    body (fst c) (a ++ c :: b) w
    = (Ok (a ++ (fst c, g (snd c)) :: b),
       mkWorld (trace w ++ evs (fst c) (snd c)) (db w)).

Lemma for_each_selected_from todo : forall done w,
  NoDup (columns (done ++ todo)) ->
  forallb (fun c => ok (snd c)) todo = true ->
  for_each (select_dtypes sel todo) body (done ++ todo) w
  = (Ok (done ++ map (fun c => if sel (snd c) then (fst c, g (snd c)) else c) todo),
     mkWorld
       (trace w ++ flat_map (fun c => if sel (snd c) then evs (fst c) (snd c) else []) todo)
       (db w)).
Proof.
  induction todo as [| c todo IH]; intros done w Hnd Hok.
  - simpl. unfold ret. rewrite !app_nil_r. now destruct w.
  - simpl in Hok. apply andb_true_iff in Hok. destruct Hok as [Hc Hok].
    unfold select_dtypes. simpl. destruct (sel (snd c)) eqn:S.
    + simpl. unfold bind. rewrite body_step by assumption.
      fold (select_dtypes sel todo).
      replace (done ++ (fst c, g (snd c)) :: todo)
        with ((done ++ [(fst c, g (snd c))]) ++ todo) by now rewrite <- app_assoc.
      rewrite IH.
      * simpl. rewrite <- !app_assoc. reflexivity.
      * rewrite <- app_assoc. simpl.
        unfold columns in *. rewrite map_app in *. exact Hnd.
      * exact Hok.
    + fold (select_dtypes sel todo).
      replace (done ++ c :: todo) with ((done ++ [c]) ++ todo) by now rewrite <- app_assoc.
      rewrite IH.
      * rewrite <- !app_assoc. reflexivity.
      * now rewrite <- app_assoc.
      * exact Hok.
Qed.

Lemma for_each_selected df w :
  NoDup (columns df) ->
  forallb (fun c => ok (snd c)) df = true ->
  for_each (select_dtypes sel df) body df w
  = (Ok (map (fun c => if sel (snd c) then (fst c, g (snd c)) else c) df),
     mkWorld
       (trace w ++ flat_map (fun c => if sel (snd c) then evs (fst c) (snd c) else []) df)
       (db w)).
Proof. intros Hnd Hok. now apply (for_each_selected_from df []). Qed.

End ColumnLoop.

(** ** The order of strings *)

Lemma ascii_compare_refl a : Ascii.compare a a = Eq.
Proof. unfold Ascii.compare. apply N.compare_refl. Qed.

Lemma ascii_compare_lt_trans a b c :
  Ascii.compare a b = Lt -> Ascii.compare b c = Lt -> Ascii.compare a c = Lt.
Proof.
  unfold Ascii.compare. rewrite !N.compare_lt_iff. apply N.lt_trans.
Qed.

Lemma string_compare_lt_trans s1 : forall s2 s3,
  String.compare s1 s2 = Lt -> String.compare s2 s3 = Lt -> String.compare s1 s3 = Lt.
Proof.
  induction s1 as [| a s1 IH]; intros [| b s2] [| c s3]; simpl;
    try discriminate; try reflexivity.
  destruct (Ascii.compare a b) eqn:Eab; try discriminate;
    destruct (Ascii.compare b c) eqn:Ebc; try discriminate; intros H1 H2.
  - apply Ascii.compare_eq_iff in Eab, Ebc. subst.
    rewrite ascii_compare_refl. now apply IH with s2.
  - apply Ascii.compare_eq_iff in Eab. subst. now rewrite Ebc.
  - apply Ascii.compare_eq_iff in Ebc. subst. now rewrite Eab.
  - now rewrite (ascii_compare_lt_trans a b c).
Qed.

Lemma string_leb_refl s : String.leb s s = true.
Proof.
  destruct (String.leb_total s s); assumption.
Qed.

Lemma string_leb_trans s1 s2 s3 :
  String.leb s1 s2 = true -> String.leb s2 s3 = true -> String.leb s1 s3 = true.
Proof.
  unfold String.leb.
  destruct (String.compare s1 s2) eqn:E12; try discriminate;
    destruct (String.compare s2 s3) eqn:E23; try discriminate; intros _ _.
  - apply String.compare_eq_iff in E12. subst. now rewrite E23.
  - apply String.compare_eq_iff in E12. subst. now rewrite E23.
  - apply String.compare_eq_iff in E23. subst. now rewrite E12.
  - now rewrite (string_compare_lt_trans s1 s2 s3).
Qed.

(** ** Sorting the modes *)

Lemma insert_sorted_In s l x : In x (insert_sorted s l) <-> x = s \/ In x l.
Proof.
  induction l as [| y l IH]; simpl.
  - intuition.
  - destruct (String.leb s y); simpl; [intuition |].
    rewrite IH. intuition.
Qed.

Lemma sort_strings_In l x : In x (sort_strings l) <-> In x l.
Proof.
  induction l as [| y l IH]; simpl; [reflexivity |].
  rewrite insert_sorted_In, IH. intuition.
Qed.

Lemma insert_sorted_ascending s l : ascending l -> ascending (insert_sorted s l).
Proof.
  unfold ascending. induction l as [| y l IH]; simpl; intros H.
  - constructor; constructor.
  - inversion H as [| ? ? Hl Hy]; subst.
    destruct (String.leb s y) eqn:E.
    + constructor; [exact H |]. constructor; [exact E |].
      rewrite Forall_forall in *. intros u Hu.
      apply string_leb_trans with y; auto.
    + constructor; [now apply IH |].
      rewrite Forall_forall in *. intros u Hu. apply insert_sorted_In in Hu.
      destruct Hu as [-> | Hu]; [| auto].
      destruct (String.leb_total s y) as [C | C]; [congruence | exact C].
Qed.

Lemma sort_strings_ascending l : ascending (sort_strings l).
Proof.
  induction l as [| y l IH]; simpl.
  - constructor.
  - now apply insert_sorted_ascending.
Qed.

Lemma ascending_head v l u : ascending (v :: l) -> In u (v :: l) -> String.leb v u = true.
Proof.
  intros H [<- | Hu]; [apply string_leb_refl |].
  inversion H as [| ? ? _ Hv]; subst. rewrite Forall_forall in Hv. auto.
Qed.

(** ** Counting the values of an object column *)

Lemma uniques_In xs : forall seen s,
  In s (uniques seen xs) <-> In (Some s) xs /\ ~ In s seen.
Proof.
  induction xs as [| [x |] xs IH]; intros seen s; simpl.
  - intuition.
  - destruct (existsb (String.eqb x) seen) eqn:E.
    + rewrite IH. split.
      * intros [H1 H2]. auto.
      * intros [[H1 | H1] H2]; [| auto].
        injection H1 as ->. exfalso. apply H2.
        apply existsb_exists in E. destruct E as (y & Hy & Ey).
        apply String.eqb_eq in Ey. now subst.
    + simpl. rewrite IH. simpl. split.
      * intros [-> | [H1 H2]].
        -- split; [now left |]. intros Hin.
           assert (existsb (String.eqb s) seen = true); [| congruence].
           apply existsb_exists. exists s. split; [exact Hin | apply String.eqb_refl].
        -- split; [now right | tauto].
      * intros [[H1 | H1] H2].
        -- injection H1 as ->. now left.
        -- destruct (String.eqb_spec x s) as [-> | N]; [now left |].
           right. split; [exact H1 |]. intros [C | C]; [congruence | contradiction].
  - rewrite IH. split.
    + intros [H1 H2]. auto.
    + intros [[H1 | H1] H2]; [discriminate | auto].
Qed.

Lemma count_str_present s xs : (0 < count_str s xs)%nat <-> In (Some s) xs.
Proof.
  unfold count_str. induction xs as [| [x |] xs IH]; simpl.
  - split; [lia | tauto].
  - destruct (String.eqb_spec s x) as [-> | N]; simpl.
    + split; [now left | lia].
    + rewrite IH. split; [now right |]. intros [C | C]; [congruence | exact C].
  - rewrite IH. split; [now right |]. intros [C | C]; [discriminate | exact C].
Qed.

Lemma fold_max_bound (f : string -> nat) l s :
  In s l -> (f s <= fold_right (fun s m => Nat.max (f s) m) 0 l)%nat.
Proof.
  induction l as [| y l IH]; simpl; [tauto |].
  intros [-> | H]; [lia |]. specialize (IH H). lia.
Qed.

Lemma fold_max_attained (f : string -> nat) l :
  l <> [] -> exists s, In s l /\ f s = fold_right (fun s m => Nat.max (f s) m) 0%nat l.
Proof.
  induction l as [| y l IH]; [congruence |]. intros _. simpl.
  destruct l as [| z l].
  - exists y. split; [now left |]. simpl. lia.
  - destruct IH as (s & Hs & Es); [discriminate |].
    destruct (Nat.max_spec (f y) (fold_right (fun s m => Nat.max (f s) m) 0%nat (z :: l)))
      as [[_ E] | [_ E]]; rewrite E.
    + exists s. split; [now right | exact Es].
    + exists y. split; [now left | reflexivity].
Qed.

(** No value occurs more often than [max_count]. *)
Lemma count_str_le_max s xs : (count_str s xs <= max_count xs)%nat.
Proof.
  destruct (Nat.eq_dec (count_str s xs) 0) as [E | N]; [lia |].
  assert (Hin : In (Some s) xs) by (apply count_str_present; lia).
  unfold max_count. apply (fold_max_bound (fun s => count_str s xs)).
  apply uniques_In. split; [exact Hin | tauto].
Qed.

(** A column with a present value has a mode. *)
Lemma mode_exists xs :
  existsb (fun o => negb (is_none o)) xs = true -> mode xs <> [].
Proof.
  intros H. apply existsb_exists in H. destruct H as ([x |] & Hin & Hx); [| discriminate].
  assert (Hu : uniques [] xs <> []).
  { intros E. assert (In x (uniques [] xs)) as C by (apply uniques_In; tauto).
    rewrite E in C. contradiction. }
  destruct (fold_max_attained (fun s => count_str s xs) _ Hu) as (s & Hs & Es).
  intros E.
  assert (In s (mode xs)) as C.
  { unfold mode. apply sort_strings_In, filter_In. split; [exact Hs |].
    apply Nat.eqb_eq. exact Es. }
  rewrite E in C. contradiction.
Qed.

(** The first mode: a present value, as frequent as any value is, and the
    least of those in the order of strings. *)
Lemma mode_head xs v rest :
  mode xs = v :: rest ->
  In (Some v) xs
  /\ (forall s, (count_str s xs <= count_str v xs)%nat)
  /\ (forall s, In (Some s) xs -> count_str s xs = count_str v xs ->
                String.leb v s = true).
Proof.
  intros E.
  assert (Hv : In v (mode xs)) by (rewrite E; now left).
  unfold mode in Hv. apply sort_strings_In, filter_In in Hv.
  destruct Hv as [Hu Hc]. apply Nat.eqb_eq in Hc. apply uniques_In in Hu.
  split; [tauto |]. split.
  - intros s. rewrite Hc. apply count_str_le_max.
  - intros s Hs Hcs.
    apply ascending_head with rest; [rewrite <- E; apply sort_strings_ascending |].
    rewrite <- E. unfold mode. apply sort_strings_In, filter_In. split.
    + apply uniques_In. tauto.
    + apply Nat.eqb_eq. congruence.
Qed.

(** ** The two fill loops *)

Lemma any_map_false {A} (xs : list A) : any (map (fun _ => false) xs) = false.
Proof. unfold any. induction xs; simpl; auto. Qed.

Lemma world_same w : mkWorld (trace w ++ []) (db w) = w.
Proof. rewrite app_nil_r. now destruct w. Qed.

Lemma fill_mean_step a c b w :
  NoDup (columns (a ++ c :: b)) -> is_number (snd c) = true -> true = true ->
  fill_mean (fst c) (a ++ c :: b) w
  = (Ok (a ++ (fst c, mean_filled (snd c)) :: b),
     mkWorld
       (trace w ++ if any (isnull (snd c)) then [Print (LFilledMean (fst c))] else [])
       (db w)).
Proof.
  intros Hnd Hsel _. destruct (NoDup_columns_middle a b c Hnd) as [Ha Hb].
  unfold fill_mean. rewrite get_col_middle by exact Ha.
  destruct c as [name [xs | xs | xs | xs | xs]]; simpl in *; try discriminate.
  - rewrite any_map_false. unfold ret. now rewrite world_same.
  - destruct (any (map F64.isnan xs)).
    + rewrite (set_col_middle a b (name, Float64 xs)) by assumption. reflexivity.
    + unfold ret. now rewrite world_same.
Qed.

Lemma fill_mode_step a c b w :
  NoDup (columns (a ++ c :: b)) -> is_object (snd c) = true -> has_mode (snd c) = true ->
  fill_mode (fst c) (a ++ c :: b) w
  = (Ok (a ++ (fst c, mode_filled (snd c)) :: b),
     mkWorld
       (trace w ++ if any (isnull (snd c)) then [Print (LFilledMode (fst c))] else [])
       (db w)).
Proof.
  intros Hnd Hsel Hok. destruct (NoDup_columns_middle a b c Hnd) as [Ha Hb].
  unfold fill_mode. rewrite get_col_middle by exact Ha.
  destruct c as [name [xs | xs | xs | xs | xs]]; simpl in *; try discriminate.
  destruct (any (map is_none xs)) eqn:E.
  - simpl in Hok. pose proof (mode_exists xs Hok) as Hm.
    destruct (mode xs) as [| v rest]; [congruence |].
    rewrite (set_col_middle a b (name, Object xs)) by assumption. reflexivity.
  - unfold ret. now rewrite world_same.
Qed.

Lemma columns_on_columns g df : columns (on_columns g df) = columns df.
Proof. unfold columns, on_columns. now rewrite map_map. Qed.

Lemma fill_means_run df w :
  NoDup (columns df) ->
  for_each (select_dtypes is_number df) fill_mean df w
  = (Ok (on_columns mean_filled df), mkWorld (trace w ++ mean_events df) (db w)).
Proof.
  intros Hnd.
  rewrite (for_each_selected fill_mean is_number (fun _ => true) mean_filled
             (fun l c => if any (isnull c) then [Print (LFilledMean l)] else [])
             fill_mean_step df w Hnd).
  - f_equal.
    + f_equal. unfold on_columns. apply map_ext. intros [name c]. simpl.
      destruct c; reflexivity.
    + f_equal. f_equal. unfold mean_events. apply flat_map_ext. intros [name c]. simpl.
      destruct (is_number c); reflexivity.
  - apply forallb_forall. reflexivity.
Qed.

Lemma fill_modes_run df w :
  NoDup (columns df) -> imputable df = true ->
  for_each (select_dtypes is_object df) fill_mode df w
  = (Ok (on_columns mode_filled df), mkWorld (trace w ++ mode_events df) (db w)).
Proof.
  intros Hnd Hok.
  rewrite (for_each_selected fill_mode is_object has_mode mode_filled
             (fun l c => if any (isnull c) then [Print (LFilledMode l)] else [])
             fill_mode_step df w Hnd Hok).
  f_equal.
  - f_equal. unfold on_columns. apply map_ext. intros [name c]. simpl.
    destruct c; reflexivity.
  - f_equal. f_equal. unfold mode_events. apply flat_map_ext. intros [name c]. simpl.
    destruct (is_object c); reflexivity.
Qed.

Lemma imputable_mean_filled df : imputable (on_columns mean_filled df) = imputable df.
Proof.
  unfold imputable, on_columns. induction df as [| [name c] df IH]; simpl; [reflexivity |].
  rewrite IH. f_equal. destruct c; simpl; try reflexivity.
  destruct (any (map F64.isnan xs)); reflexivity.
Qed.

(** ** The date step *)

Section DateStep.

Variable parse_datetime : coldata -> cell -> option Z.

Lemma has_column_get_col name df :
  has_column name df = true <-> exists c, get_col name df = Some c.
Proof.
  unfold has_column, get_col, columns. induction df as [| x df IH]; simpl.
  - split; [discriminate | intros [c H]; discriminate].
  - destruct (String.eqb name (fst x)); simpl.
    + split; [eauto | reflexivity].
    + exact IH.
Qed.

Lemma get_col_set_col name v df c :
  get_col name df = Some c -> get_col name (set_col name v df) = Some v.
Proof.
  unfold get_col. induction df as [| x df IH]; simpl; [discriminate |].
  destruct (String.eqb name (fst x)) eqn:E; simpl.
  - intros _. now rewrite E.
  - rewrite E. exact IH.
Qed.

Lemma convert_date_run df w :
  convert_date parse_datetime df w
  = (Ok (date_converted parse_datetime df),
     mkWorld (trace w ++ date_events parse_datetime df) (db w)).
Proof.
  unfold convert_date, date_converted, date_events.
  destruct (has_column "Date" df) eqn:H.
  - apply has_column_get_col in H. destruct H as [c Hc]. rewrite Hc.
    rewrite (get_col_set_col "Date" _ df c Hc).
    unfold bind, print, emit, ret.
    destruct (any (isnull (to_datetime parse_datetime c))); reflexivity.
  - destruct (get_col "Date" df) as [c |] eqn:Hc.
    + assert (has_column "Date" df = true) by (apply has_column_get_col; eauto).
      congruence.
    + unfold ret. now rewrite world_same.
Qed.

(** ** The cleaner, end to end *)

(** On a frame with distinct labels whose object columns have a mode, the
    cleaner returns [cleaned df]; it prints its lines and does nothing
    else. *)
Lemma transform_data_run df w :
  NoDup (columns df) -> imputable df = true ->
  transform_data parse_datetime (Some df) w
  = (Ok (Some (cleaned parse_datetime df)),
     mkWorld
       (trace w ++ Enter Cleaner :: Print LTransformStart
        :: cleaning_events parse_datetime df ++ [Print LTransformDone])
       (db w)).
Proof.
  intros Hnd Hok.
  unfold transform_data, bind at 1 2. simpl.
  unfold bind at 1. rewrite fill_means_run by exact Hnd. simpl.
  unfold bind at 1. rewrite fill_modes_run
    by (rewrite ?columns_on_columns, ?imputable_mean_filled; assumption).
  simpl. unfold bind at 1. rewrite remove_duplicates_run. simpl.
  unfold bind at 1. rewrite convert_date_run. simpl.
  unfold bind, print, emit, ret, cleaned, cleaning_events. simpl.
  rewrite <- !app_assoc. simpl. rewrite <- ?app_assoc. reflexivity.
Qed.

End DateStep.

(** ** Rules of the logic of runs *)

Section Rules.

Variable P : event -> Prop.

Lemma satisfies_ret {A} (a : A) (Q : A -> Prop) : Q a -> satisfies (ret a) P Q.
Proof.
  intros H w. simpl. split; [| exact H].
  exists []. now rewrite app_nil_r.
Qed.

Lemma satisfies_raise {A} e (Q : A -> Prop) : satisfies (raise e) P Q.
Proof.
  intros w. simpl. split; [| exact I].
  exists []. now rewrite app_nil_r.
Qed.

Lemma satisfies_emit e (Q : unit -> Prop) : P e -> Q tt -> satisfies (emit e) P Q.
Proof.
  intros He HQ w. simpl. split; [| exact HQ].
  exists [e]. split; [reflexivity |]. now constructor.
Qed.

Lemma satisfies_print l (Q : unit -> Prop) :
  P (Print l) -> Q tt -> satisfies (print l) P Q.
Proof. apply satisfies_emit. Qed.

Lemma satisfies_bind {A B} (m : M A) (k : A -> M B) (Q : A -> Prop) (R : B -> Prop) :
  satisfies m P Q -> (forall a, Q a -> satisfies (k a) P R) ->
  satisfies (bind m k) P R.
Proof.
  intros Hm Hk w. unfold bind.
  destruct (Hm w) as [(evs & Et & Hevs) Hq].
  destruct (m w) as [[a | e] w1]; simpl in *.
  - destruct (Hk a Hq w1) as [(evs' & Et' & Hevs') Hr].
    split; [| exact Hr].
    exists (evs ++ evs'). split.
    + now rewrite Et', Et, app_assoc.
    + now apply Forall_app.
  - split; [| exact I]. now exists evs.
Qed.

Lemma satisfies_try_except {A} (body : M A) (handler : exn -> M A) (Q : A -> Prop) :
  satisfies body P Q -> (forall e, satisfies (handler e) P Q) ->
  satisfies (try_except body handler) P Q.
Proof.
  intros Hb Hh w. unfold try_except.
  destruct (Hb w) as [(evs & Et & Hevs) Hq].
  destruct (body w) as [[a | e] w1]; simpl in *.
  - split; [| exact Hq]. now exists evs.
  - destruct (Hh e w1) as [(evs' & Et' & Hevs') Hr].
    split; [| exact Hr].
    exists (evs ++ evs'). split.
    + now rewrite Et', Et, app_assoc.
    + now apply Forall_app.
Qed.

Lemma satisfies_weaken {A} (m : M A) (Q Q' : A -> Prop) :
  satisfies m P Q -> (forall a, Q a -> Q' a) -> satisfies m P Q'.
Proof.
  intros Hm HQ w. destruct (Hm w) as [Hevs Hq]. split; [exact Hevs |].
  destruct (fst (m w)); auto.
Qed.

Lemma satisfies_for_each {A S} (xs : list A) (body : A -> S -> M S) :
  (forall x s, satisfies (body x s) P anything) ->
  forall s, satisfies (for_each xs body s) P anything.
Proof.
  intros Hbody. induction xs as [| x xs IH]; intros s; simpl.
  - now apply satisfies_ret.
  - apply satisfies_bind with anything; [apply Hbody |]. intros s' _. apply IH.
Qed.

End Rules.

(** ** No stage prints the abort-at-transform line *)

Ltac quiet_event :=
  unfold not_abort_transform; intros Habs; inversion Habs.

Ltac quiet_step :=
  lazymatch goal with
  | |- satisfies (ret _) _ _ => apply satisfies_ret; exact I
  | |- satisfies (raise _) _ _ => apply satisfies_raise
  | |- satisfies (print _) _ _ => apply satisfies_print; [quiet_event | exact I]
  | |- satisfies (emit _) _ _ => apply satisfies_emit; [quiet_event | exact I]
  | |- satisfies (bind _ _) _ _ =>
      apply satisfies_bind with (Q := anything); [| intros ? _]
  end.

Ltac quiet := repeat quiet_step.

Lemma fill_mean_quiet col df :
  satisfies (fill_mean col df) not_abort_transform anything.
Proof.
  unfold fill_mean. destruct (get_col col df) as [c |]; [| quiet].
  destruct (any (isnull c)); [| quiet]. destruct c; quiet.
Qed.

Lemma fill_mode_quiet col df :
  satisfies (fill_mode col df) not_abort_transform anything.
Proof.
  unfold fill_mode. destruct (get_col col df) as [c |]; [| quiet].
  destruct (any (isnull c)); [| quiet]. destruct c; quiet.
  destruct (mode xs); quiet.
Qed.

Lemma remove_duplicates_quiet df :
  satisfies (remove_duplicates df) not_abort_transform anything.
Proof.
  unfold remove_duplicates. quiet. destruct (_ <? _)%nat; quiet.
Qed.

Lemma convert_date_quiet parse_datetime df :
  satisfies (convert_date parse_datetime df) not_abort_transform anything.
Proof.
  unfold convert_date. destruct (has_column "Date" df); [| quiet].
  destruct (get_col "Date" df) as [c |]; [| quiet].
  destruct (get_col "Date" (set_col _ _ _)) as [c' |]; [| quiet].
  quiet. destruct (any (isnull c')); quiet.
Qed.

(** The cleaner given a frame returns a frame when it returns. *)
Lemma transform_data_quiet parse_datetime df :
  satisfies (transform_data parse_datetime (Some df)) not_abort_transform
    (fun r => r <> None).
Proof.
  unfold transform_data.
  apply satisfies_bind with (Q := anything); [quiet | intros _ _].
  apply satisfies_bind with (Q := anything); [quiet | intros _ _].
  apply satisfies_bind with (Q := anything);
    [apply satisfies_for_each; intros; apply fill_mean_quiet | intros df1 _].
  apply satisfies_bind with (Q := anything);
    [apply satisfies_for_each; intros; apply fill_mode_quiet | intros df2 _].
  apply satisfies_bind with (Q := anything); [apply remove_duplicates_quiet | intros df3 _].
  apply satisfies_bind with (Q := anything); [apply convert_date_quiet | intros df4 _].
  apply satisfies_bind with (Q := anything); [quiet | intros _ _].
  apply satisfies_ret. discriminate.
Qed.

Lemma extract_data_from_url_quiet http csv url :
  satisfies (extract_data_from_url http csv url) not_abort_transform anything.
Proof.
  unfold extract_data_from_url. quiet.
  apply satisfies_try_except.
  - unfold requests_get. quiet.
    + destruct (http url); quiet.
    + unfold raise_for_status.
      destruct (_ && _); [quiet |]. destruct (_ && _); quiet.
    + unfold read_csv. destruct (csv _); quiet.
  - intros e. destruct e; quiet.
Qed.

Lemma replace_table_quiet sql df table_name engine :
  satisfies (replace_table sql df table_name engine) not_abort_transform anything.
Proof.
  intros w. unfold replace_table.
  destruct (sql engine table_name df); simpl; (split; [| exact I]);
    exists []; now rewrite app_nil_r.
Qed.

Lemma load_data_quiet engine_fault sql df db_url table_name :
  satisfies (load_data engine_fault sql df db_url table_name)
    not_abort_transform anything.
Proof.
  unfold load_data. quiet. destruct df as [df |]; [| quiet].
  apply satisfies_try_except.
  - unfold create_engine, to_sql. quiet.
    + destruct (engine_fault db_url); quiet.
    + apply replace_table_quiet.
  - intros e. quiet.
Qed.

Lemma run_etl_pipeline_quiet http csv parse_datetime engine_fault sql started finished
    data_source_url db_url table_name :
  satisfies
    (run_etl_pipeline http csv parse_datetime engine_fault sql started finished
       data_source_url db_url table_name)
    not_abort_transform anything.
Proof.
  unfold run_etl_pipeline.
  apply satisfies_bind with (Q := anything); [quiet | intros _ _].
  apply satisfies_bind with (Q := anything); [apply extract_data_from_url_quiet |].
  intros [raw_data |] _; [| quiet].
  apply satisfies_bind with (Q := fun r : option frame => r <> None);
    [apply transform_data_quiet |].
  intros [transformed |] Hsome; [| congruence].
  apply satisfies_bind with (Q := anything); [apply load_data_quiet | intros _ _].
  quiet.
Qed.

(** ** Looking columns up *)

Lemma get_col_In name c df :
  NoDup (columns df) -> In (name, c) df -> get_col name df = Some c.
Proof.
  intros Hnd Hin. apply in_split in Hin. destruct Hin as (a & b & ->).
  destruct (NoDup_columns_middle a b (name, c) Hnd) as [Ha _].
  exact (get_col_middle a b (name, c) Ha).
Qed.

Lemma get_col_Some name c df : get_col name df = Some c -> In (name, c) df.
Proof.
  unfold get_col.
  match goal with
  | |- context [find ?f df] => destruct (find f df) as [[name' c'] |] eqn:F
  end; [| discriminate].
  intros H. simpl in H. injection H as <-. apply find_some in F. destruct F as [Hin E].
  simpl in E. apply String.eqb_eq in E. now subst.
Qed.

Lemma get_col_on_columns g name df :
  get_col name (on_columns g df) = option_map g (get_col name df).
Proof.
  unfold get_col, on_columns. induction df as [| [name' c] df IH]; simpl; [reflexivity |].
  destruct (String.eqb name name'); [reflexivity | exact IH].
Qed.

Lemma get_col_frame_select mask name df :
  get_col name (frame_select mask df) = option_map (col_select mask) (get_col name df).
Proof.
  unfold get_col, frame_select. induction df as [| [name' c] df IH]; simpl; [reflexivity |].
  destruct (String.eqb name name'); [reflexivity | exact IH].
Qed.

Lemma get_col_set_col_other name name' v df :
  name <> name' -> get_col name (set_col name' v df) = get_col name df.
Proof.
  intros N. unfold get_col. induction df as [| [l c] df IH]; [reflexivity |].
  rewrite set_col_cons. simpl.
  destruct (String.eqb_spec name' l) as [-> | N']; simpl.
  - destruct (String.eqb_spec name l) as [E | _]; [contradiction | exact IH].
  - destruct (String.eqb name l); [reflexivity | exact IH].
Qed.

Lemma columns_set_col name v df : columns (set_col name v df) = columns df.
Proof.
  unfold columns. induction df as [| [l c] df IH]; [reflexivity |].
  rewrite set_col_cons. simpl. rewrite IH.
  now destruct (String.eqb name l).
Qed.

Lemma get_col_date_converted parse_datetime name df :
  name <> "Date" ->
  get_col name (date_converted parse_datetime df) = get_col name df.
Proof.
  intros N. unfold date_converted.
  destruct (get_col "Date" df); [| reflexivity].
  now apply get_col_set_col_other.
Qed.

Lemma any_true_iff mask : any mask = true <-> In true mask.
Proof.
  unfold any. rewrite existsb_exists. split.
  - intros (b & Hb & ->). exact Hb.
  - intros H. now exists true.
Qed.

Lemma any_false_repeat mask : any mask = false -> mask = repeat false (length mask).
Proof.
  unfold any. induction mask as [| [] mask IH]; simpl; try discriminate; [reflexivity |].
  intros H. now rewrite <- IH.
Qed.

(** ** Frames the cleaner leaves alone *)

Lemma for_each_fixed {A S} (body : A -> S -> M S) (s : S) xs : forall w,
  (forall x w', In x xs -> body x s w' = (Ok s, w')) ->
  for_each xs body s w = (Ok s, w).
Proof.
  induction xs as [| x xs IH]; intros w H; [reflexivity |].
  simpl. unfold bind. rewrite H by now left.
  apply IH. intros y w' Hy. apply H. now right.
Qed.

Lemma select_dtypes_get_col sel df name :
  In name (select_dtypes sel df) -> exists c, get_col name df = Some c /\ In (name, c) df.
Proof.
  unfold select_dtypes, columns. rewrite in_map_iff.
  intros ([name' c] & <- & Hin). apply filter_In in Hin. destruct Hin as [Hin _].
  assert (H : has_column name' df = true).
  { unfold has_column, columns. apply existsb_exists. exists name'.
    split; [| apply String.eqb_refl]. apply in_map_iff. now exists (name', c). }
  apply has_column_get_col in H. destruct H as [c' Hc'].
  exists c'. split; [exact Hc' | now apply get_col_Some].
Qed.

Lemma complete_column df name c :
  complete df = true -> In (name, c) df -> any (isnull c) = false.
Proof.
  unfold complete. rewrite forallb_forall. intros H Hin.
  specialize (H _ Hin). simpl in H. now apply negb_true_iff in H.
Qed.

Lemma drop_duplicates_none df :
  aligned df = true -> any (duplicated df) = false -> drop_duplicates df = df.
Proof.
  intros Ha Hd. unfold drop_duplicates.
  rewrite (any_false_repeat _ Hd), map_repeat. simpl.
  apply frame_select_all.
  rewrite duplicated_length by exact Ha.
  unfold aligned in Ha. rewrite forallb_forall in *.
  intros c Hc. specialize (Ha c Hc). apply Nat.eqb_eq in Ha. apply Nat.leb_le. lia.
Qed.

(** ** Identity on clean frames *)

Section Identity.

Variable parse_datetime : coldata -> cell -> option Z.

Lemma fill_mean_fixed df name w :
  complete df = true -> In name (select_dtypes is_number df) ->
  fill_mean name df w = (Ok df, w).
Proof.
  intros Hc Hin. destruct (select_dtypes_get_col _ _ _ Hin) as (c & Hget & Hc').
  unfold fill_mean. rewrite Hget. now rewrite (complete_column df name c).
Qed.

Lemma fill_mode_fixed df name w :
  complete df = true -> In name (select_dtypes is_object df) ->
  fill_mode name df w = (Ok df, w).
Proof.
  intros Hc Hin. destruct (select_dtypes_get_col _ _ _ Hin) as (c & Hget & Hc').
  unfold fill_mode. rewrite Hget. now rewrite (complete_column df name c).
Qed.

(** C3, amended.  On a frame with aligned columns, no missing value, no
    duplicate row and no column named "Date", the cleaner returns the frame
    it was given and prints its first and last line only. *)
Theorem transform_data_identity :
  forall df w,
    aligned df = true ->
    complete df = true ->
    any (duplicated df) = false ->
    has_column "Date" df = false ->
    transform_data parse_datetime (Some df) w
    = (Ok (Some df),
       mkWorld (trace w ++ [Enter Cleaner; Print LTransformStart; Print LTransformDone])
         (db w)).
Proof.
  intros df w Ha Hc Hd Hdate.
  unfold transform_data, bind at 1 2. simpl.
  unfold bind at 1. rewrite for_each_fixed
    by (intros; now apply fill_mean_fixed).
  unfold bind at 1. rewrite for_each_fixed
    by (intros; now apply fill_mode_fixed).
  unfold bind at 1. rewrite remove_duplicates_run.
  rewrite (drop_duplicates_none df Ha Hd), Nat.ltb_irrefl.
  unfold bind at 1. unfold convert_date. rewrite Hdate.
  unfold bind, print, emit, ret. simpl.
  rewrite app_nil_r, <- !app_assoc. reflexivity.
Qed.

End Identity.

(** C3 on a frame of two rows. *)
Lemma transform_data_identity_witness :
  transform_data Demo.parse_datetime (Some Demo.plain) Demo.fresh
  = (Ok (Some Demo.plain),
     mkWorld
       (trace Demo.fresh ++ [Enter Cleaner; Print LTransformStart; Print LTransformDone])
       (db Demo.fresh)).
Proof.
  apply (transform_data_identity Demo.parse_datetime Demo.plain Demo.fresh);
    reflexivity.
Defined.

(** C3 as stated fails on a frame with a column named "Date": the frame
    has no missing value and no duplicate row, and the cleaner returns
    another frame, whose date column has another type and, here, a missing
    value. *)
Lemma transform_data_changes_date_column :
  aligned Demo.one_row = true
  /\ complete Demo.one_row = true
  /\ any (duplicated Demo.one_row) = false
  /\ fst (transform_data Demo.parse_datetime (Some Demo.one_row) Demo.fresh)
     = Ok (Some [("Date", Datetime64 [None]); ("Value", Int64 [10])])
  /\ [("Date", Datetime64 [None]); ("Value", Int64 [10])] <> Demo.one_row.
Proof.
  repeat split; try reflexivity. discriminate.
Qed.

(** ** The date step *)

Section DateColumn.

Variable parse_datetime : coldata -> cell -> option Z.

(** C5. The date step never raises.  On a frame without a column named
    "Date" it returns the frame and prints nothing.  On a frame with one it
    puts in its place the column of the parsed values, a date where the
    value parses and the missing marker where it does not, keeps the labels
    and every other column, and prints one line: the warning when the new
    column has a missing marker, the confirmation when it has none. *)
Theorem convert_date_coerces :
  forall df w,
    match get_col "Date" df with
    | None => has_column "Date" df = false /\ convert_date parse_datetime df w = (Ok df, w)
    | Some c =>
        let parsed := map (parse_datetime c) (cells c) in
        exists df',
          has_column "Date" df = true
          /\ convert_date parse_datetime df w
             = (Ok df',
                mkWorld
                  (trace w ++ [Print (if any (map is_none parsed)
                                      then LDateWarning else LDateConverted)])
                  (db w))
          /\ get_col "Date" df' = Some (Datetime64 parsed)
          /\ length parsed = col_len c
          /\ (forall i v, nth_error (cells c) i = Some v ->
                nth_error parsed i = Some (parse_datetime c v))
          /\ (any (map is_none parsed) = true <-> In None parsed)
          /\ columns df' = columns df
          /\ (forall name, name <> "Date" -> get_col name df' = get_col name df)
    end.
Proof.
  intros df w. destruct (get_col "Date" df) as [c |] eqn:Hget.
  - simpl. exists (set_col "Date" (to_datetime parse_datetime c) df).
    assert (Hhas : has_column "Date" df = true) by (apply has_column_get_col; eauto).
    split; [exact Hhas |]. split.
    + rewrite convert_date_run. unfold date_converted, date_events. rewrite Hget.
      reflexivity.
    + split; [exact (get_col_set_col "Date" _ df c Hget) |].
      split; [now rewrite length_map, col_len_cells |].
      split; [intros i v Hv; now apply map_nth_error |].
      split.
      * rewrite any_true_iff, in_map_iff. split.
        -- intros ([t |] & Ht & Hin); [discriminate | exact Hin].
        -- intros Hin. now exists None.
      * split; [apply columns_set_col |].
        intros name N. now apply get_col_set_col_other.
  - assert (Hhas : has_column "Date" df = false).
    { destruct (has_column "Date" df) eqn:E; [| reflexivity].
      apply has_column_get_col in E. destruct E as [c Hc]. congruence. }
    split; [exact Hhas |].
    unfold convert_date. now rewrite Hhas.
Qed.

End DateColumn.

Example convert_date_one_row :
  convert_date Demo.parse_datetime Demo.one_row Demo.fresh
  = (Ok [("Date", Datetime64 [None]); ("Value", Int64 [10])],
     mkWorld [Print LDateWarning] Demo.empty_store).
Proof. reflexivity. Qed.

Example convert_date_three_rows :
  fst (convert_date Demo.parse_datetime Demo.three_rows Demo.fresh)
  = Ok [("Date", Datetime64 [Some 1577836800000000000; Some 1577836800000000000;
                              Some 1577836800000000000]);
        ("Value", Int64 [10; 20; 10])].
Proof. reflexivity. Qed.

(** ** The cleaner never makes a sentinel *)

(** C10. The cleaner given a frame never returns the sentinel; on a frame
    as [read_csv] makes them, with distinct labels and a present value in
    every object column that has a missing one, it returns the cleaned
    frame.  So no run of the pipeline prints the abort-at-transform line. *)
Theorem transform_data_never_sentinel :
  (forall parse_datetime df w,
      fst (transform_data parse_datetime (Some df) w) <> Ok None)
  /\ (forall parse_datetime df w,
         unique_labels (columns df) = true -> imputable df = true ->
         fst (transform_data parse_datetime (Some df) w)
         = Ok (Some (cleaned parse_datetime df)))
  /\ (forall http csv parse_datetime engine_fault sql started finished
             data_source_url db_url table_name w,
         exists evs,
           trace (snd (run_etl_pipeline http csv parse_datetime engine_fault sql
                         started finished data_source_url db_url table_name w))
           = trace w ++ evs
           /\ ~ In (Print LAbortTransform) evs).
Proof.
  split; [| split].
  - intros p df w.
    destruct (transform_data_quiet p df w) as [_ H].
    destruct (fst (transform_data p (Some df) w)) as [r | e]; [| discriminate].
    intros E. injection E as ->. now apply H.
  - intros p df w Hu Hi. apply unique_labels_NoDup in Hu.
    now rewrite transform_data_run.
  - intros http csv p ef sql st fi url db_url t w.
    destruct (run_etl_pipeline_quiet http csv p ef sql st fi url db_url t w)
      as [(evs & Et & Hevs) _].
    exists evs. split; [exact Et |].
    rewrite Forall_forall in Hevs. intros Hin. now apply (Hevs _ Hin).
Qed.

(** C10 on a frame of one row. *)
Lemma transform_data_never_sentinel_witness :
  fst (transform_data Demo.parse_datetime (Some Demo.one_row) Demo.fresh)
  = Ok (Some (cleaned Demo.parse_datetime Demo.one_row)).
Proof.
  destruct transform_data_never_sentinel as (_ & H & _).
  apply (H Demo.parse_datetime Demo.one_row Demo.fresh); reflexivity.
Defined.

(** ** Filling a float column with its mean *)

(** A list of more than 128 numbers is split in two shorter ones, so the
    depth given to [pairwise_sum] is never used up. *)
Lemma pairwise_split_bounds n :
  (128 < n)%nat ->
  let n2 := (n / 2 - (n / 2) mod 8)%nat in
  (0 < n2 /\ n2 < n)%nat.
Proof.
  intros Hn n2. unfold n2.
  pose proof (Nat.div_mod_eq n 2) as H1.
  pose proof (Nat.mod_upper_bound n 2) as H2.
  pose proof (Nat.mod_upper_bound (n / 2) 8) as H3.
  generalize dependent (n mod 2)%nat. generalize dependent ((n / 2) mod 8)%nat.
  generalize dependent (n / 2)%nat. intros. lia.
Qed.

Lemma pairwise_sum_depth : forall depth depth' xs,
  (length xs <= depth)%nat -> (length xs <= depth')%nat ->
  pairwise_sum depth xs = pairwise_sum depth' xs.
Proof.
  induction depth as [| depth IH]; intros depth' xs H H'.
  - destruct xs; [| simpl in H; lia]. now destruct depth'.
  - destruct depth' as [| depth'].
    + destruct xs; [| simpl in H'; lia]. reflexivity.
    + cbn [pairwise_sum].
      destruct (Nat.leb_spec (length xs) 128) as [Hn | Hn]; [reflexivity |].
      destruct (pairwise_split_bounds (length xs) Hn) as [Hlo Hhi].
      f_equal; apply IH; rewrite ?length_firstn, ?length_skipn; lia.
Qed.

(** The sum of more than 128 numbers, as numpy splits it. *)
Lemma pairwise_sum_split xs :
  (128 < length xs)%nat ->
  let n2 := (length xs / 2 - (length xs / 2) mod 8)%nat in
  pairwise_sum (length xs) xs
  = F64.add (pairwise_sum n2 (firstn n2 xs))
      (pairwise_sum (length xs - n2) (skipn n2 xs)).
Proof.
  intros Hn n2. destruct (pairwise_split_bounds (length xs) Hn) as [Hlo Hhi].
  fold n2 in Hlo, Hhi.
  destruct (length xs) as [| k] eqn:E; [lia |].
  cbn [pairwise_sum]. rewrite E.
  destruct (Nat.leb_spec (S k) 128) as [Hle | _]; [lia |].
  fold n2. f_equal; apply pairwise_sum_depth;
    rewrite ?length_firstn, ?length_skipn; lia.
Qed.

(** Eight numbers or more are not added from left to right: the mean of
    ten times 0.1 and a gap is 0.1, and from left to right the sum over
    ten is the number before it. *)
Example nanmean_ten_tenths :
  nanmean (repeat Demo.f0_1 5 ++ F64.nan :: repeat Demo.f0_1 5) = Demo.f0_1
  /\ F64.div (sum_few (repeat Demo.f0_1 10)) (F64.of_nat 10)
     = S754_finite false 7205759403792793 (-56).
Proof. vm_compute. split; reflexivity. Qed.

Lemma fillna_float_settled m xs :
  F64.isnan m = false -> any (map F64.isnan (fillna_float m xs)) = false.
Proof.
  intros Hm. unfold any, fillna_float. induction xs as [| x xs IH]; simpl; [reflexivity |].
  rewrite IH, orb_false_r. destruct (F64.isnan x) eqn:E; [exact Hm | exact E].
Qed.

Lemma mode_filled_float xs : mode_filled (Float64 xs) = Float64 xs.
Proof. reflexivity. Qed.

Lemma mean_filled_object xs : mean_filled (Object xs) = Object xs.
Proof. reflexivity. Qed.

Section Imputation.

Variable parse_datetime : coldata -> cell -> option Z.

(** The column of the cleaned frame, for a column that is not the date. *)
Lemma get_col_cleaned df name c :
  NoDup (columns df) -> In (name, c) df -> name <> "Date" ->
  get_col name (cleaned parse_datetime df)
  = Some (col_select (kept_rows df) (mode_filled (mean_filled c))).
Proof.
  intros Hnd Hin N. unfold cleaned, drop_duplicates.
  rewrite get_col_date_converted by exact N.
  rewrite get_col_frame_select, !get_col_on_columns.
  now rewrite (get_col_In name c df Hnd Hin).
Qed.

(** C1, amended.  In a frame with distinct labels, take a float column
    that has missing values.  The first loop of the cleaner computes
    [nanmean] of the column, the binary64 sum of the present values in the
    order of numpy's sum over their number, and puts it in the place of
    each missing value: the column keeps its length, a position that held
    a value still holds it, and a position that held none holds the mean.
    No missing value is left when the mean is a number, which it is not
    when no value is present.  The cleaner returns the cleaned frame when
    every object column has a mode; the column of that frame under this
    label, if it is not "Date", is the filled column less the duplicate
    rows. *)
Theorem fill_mean_replaces_missing :
  forall df w name xs,
    unique_labels (columns df) = true ->
    In (name, Float64 xs) df ->
    any (map F64.isnan xs) = true ->
    let m := nanmean xs in
    let ys := fillna_float m xs in
    get_col name (on_columns mean_filled df) = Some (Float64 ys)
    /\ length ys = length xs
    /\ (forall i x, nth_error xs i = Some x ->
          nth_error ys i = Some (if F64.isnan x then m else x))
    /\ (F64.isnan m = false -> any (map F64.isnan ys) = false)
    /\ (imputable df = true ->
        fst (transform_data parse_datetime (Some df) w)
        = Ok (Some (cleaned parse_datetime df)))
    /\ (name <> "Date" ->
        get_col name (cleaned parse_datetime df)
        = Some (Float64 (select (kept_rows df) ys))).
Proof.
  intros df w name xs Hu Hin Hnan m ys.
  apply unique_labels_NoDup in Hu.
  assert (Hfilled : mean_filled (Float64 xs) = Float64 ys).
  { simpl. now rewrite Hnan. }
  split.
  { now rewrite get_col_on_columns, (get_col_In name _ df Hu Hin), <- Hfilled. }
  split; [apply length_map |].
  split.
  { intros i x Hx. unfold ys, fillna_float.
    now rewrite (map_nth_error _ _ _ Hx). }
  split; [apply fillna_float_settled |].
  split; [intros Hi; now rewrite transform_data_run |].
  intros N. rewrite (get_col_cleaned df name _ Hu Hin N), Hfilled. reflexivity.
Qed.

(** C4. In a frame with distinct labels, take an object column that has
    missing values, and a present value as every column has that
    [read_csv] types as text.  [mode()[0]] is a present value of the column
    that occurs at least as often as any other, the least in the order of
    strings among those that occur as often.  The second loop of the
    cleaner puts this one value in the place of each missing value and
    leaves the values that are present.  The cleaner returns the cleaned
    frame when every object column has a mode; the column of that frame
    under this label, if it is not "Date", is the filled column less the
    duplicate rows. *)
Theorem fill_mode_replaces_missing :
  forall df w name xs,
    unique_labels (columns df) = true ->
    In (name, Object xs) df ->
    any (map is_none xs) = true ->
    existsb (fun o => negb (is_none o)) xs = true ->
    exists mode_val rest,
      mode xs = mode_val :: rest
      /\ In (Some mode_val) xs
      /\ (forall s, (count_str s xs <= count_str mode_val xs)%nat)
      /\ (forall s, In (Some s) xs -> count_str s xs = count_str mode_val xs ->
                    String.leb mode_val s = true)
      /\ get_col name (on_columns mode_filled (on_columns mean_filled df))
         = Some (Object (fillna_object mode_val xs))
      /\ length (fillna_object mode_val xs) = length xs
      /\ (forall i o, nth_error xs i = Some o ->
            nth_error (fillna_object mode_val xs) i
            = Some (match o with None => Some mode_val | Some s => Some s end))
      /\ (imputable df = true ->
          fst (transform_data parse_datetime (Some df) w)
          = Ok (Some (cleaned parse_datetime df)))
      /\ (name <> "Date" ->
          get_col name (cleaned parse_datetime df)
          = Some (Object (select (kept_rows df) (fillna_object mode_val xs)))).
Proof.
  intros df w name xs Hu Hin Hnone Hmode.
  apply unique_labels_NoDup in Hu.
  pose proof (mode_exists xs Hmode) as Hne.
  destruct (mode xs) as [| mode_val rest] eqn:E; [congruence |].
  exists mode_val, rest.
  destruct (mode_head xs mode_val rest E) as (Hpresent & Hmost & Hleast).
  assert (Hfilled : mode_filled (mean_filled (Object xs))
                    = Object (fillna_object mode_val xs)).
  { simpl. now rewrite Hnone, E. }
  split; [reflexivity |]. split; [exact Hpresent |].
  split; [exact Hmost |]. split; [exact Hleast |].
  split.
  { now rewrite !get_col_on_columns, (get_col_In name _ df Hu Hin), <- Hfilled. }
  split; [apply length_map |].
  split.
  { intros i o Ho. unfold fillna_object. rewrite (map_nth_error _ _ _ Ho).
    now destruct o. }
  split; [intros Hi; now rewrite transform_data_run |].
  intros N. rewrite (get_col_cleaned df name _ Hu Hin N), Hfilled. reflexivity.
Qed.

End Imputation.

(** C1 on a frame of five rows, one of them without a reading. *)
Lemma fill_mean_replaces_missing_witness :
  let xs := [Demo.f0_1; Demo.f0_3; F64.nan; Demo.f0_1; Demo.f0_3] in
  let m := nanmean xs in
  let ys := fillna_float m xs in
  get_col "Reading" (on_columns mean_filled Demo.measured) = Some (Float64 ys)
  /\ length ys = length xs
  /\ (forall i x, nth_error xs i = Some x ->
        nth_error ys i = Some (if F64.isnan x then m else x))
  /\ (F64.isnan m = false -> any (map F64.isnan ys) = false)
  /\ (imputable Demo.measured = true ->
      fst (transform_data Demo.parse_datetime (Some Demo.measured) Demo.fresh)
      = Ok (Some (cleaned Demo.parse_datetime Demo.measured)))
  /\ ("Reading" <> "Date" ->
      get_col "Reading" (cleaned Demo.parse_datetime Demo.measured)
      = Some (Float64 (select (kept_rows Demo.measured) ys))).
Proof.
  apply (fill_mean_replaces_missing Demo.parse_datetime Demo.measured
           Demo.fresh "Reading"
           [Demo.f0_1; Demo.f0_3; F64.nan; Demo.f0_1; Demo.f0_3]).
  - reflexivity.
  - simpl. right. left. reflexivity.
  - reflexivity.
Defined.

(** C4 on the same frame, where "Oslo" and "Rome" both occur twice. *)
Lemma fill_mode_replaces_missing_witness :
  let xs := [Some "Rome"; None; Some "Oslo"; Some "Rome"; Some "Oslo"] in
  exists mode_val rest,
    mode xs = mode_val :: rest
    /\ In (Some mode_val) xs
    /\ (forall s, (count_str s xs <= count_str mode_val xs)%nat)
    /\ (forall s, In (Some s) xs -> count_str s xs = count_str mode_val xs ->
                  String.leb mode_val s = true)
    /\ get_col "City" (on_columns mode_filled (on_columns mean_filled Demo.measured))
       = Some (Object (fillna_object mode_val xs))
    /\ length (fillna_object mode_val xs) = length xs
    /\ (forall i o, nth_error xs i = Some o ->
          nth_error (fillna_object mode_val xs) i
          = Some (match o with None => Some mode_val | Some s => Some s end))
    /\ (imputable Demo.measured = true ->
        fst (transform_data Demo.parse_datetime (Some Demo.measured) Demo.fresh)
        = Ok (Some (cleaned Demo.parse_datetime Demo.measured)))
    /\ ("City" <> "Date" ->
        get_col "City" (cleaned Demo.parse_datetime Demo.measured)
        = Some (Object (select (kept_rows Demo.measured) (fillna_object mode_val xs)))).
Proof.
  apply (fill_mode_replaces_missing Demo.parse_datetime Demo.measured
           Demo.fresh "City"
           [Some "Rome"; None; Some "Oslo"; Some "Rome"; Some "Oslo"]).
  - reflexivity.
  - simpl. left. reflexivity.
  - reflexivity.
  - reflexivity.
Defined.

Example mode_of_a_tie :
  mode [Some "Rome"; None; Some "Oslo"; Some "Rome"; Some "Oslo"] = ["Oslo"; "Rome"].
Proof. reflexivity. Qed.

Example transform_data_measured :
  fst (transform_data Demo.parse_datetime (Some Demo.measured) Demo.fresh)
  = Ok (Some
          [("City", Object [Some "Rome"; Some "Oslo"; Some "Oslo"]);
           ("Reading",
            Float64 [Demo.f0_1; Demo.f0_3; Demo.f0_2])]).
Proof. vm_compute. reflexivity. Qed.

(** C1 as stated fails in binary64.  The mean of 0.1 and 0.3 is 0.2; the
    cleaner fills the gap of the column with it; and the mean of 0.1, 0.3
    and 0.2 is the next number after 0.2. *)
Lemma fill_mean_moves_the_mean :
  nanmean [Demo.f0_1; Demo.f0_3; F64.nan] = Demo.f0_2
  /\ fst (transform_data Demo.parse_datetime (Some Demo.readings) Demo.fresh)
     = Ok (Some [("Id", Int64 [1; 2; 3]);
                 ("Reading", Float64 [Demo.f0_1; Demo.f0_3; Demo.f0_2])])
  /\ nanmean [Demo.f0_1; Demo.f0_3; Demo.f0_2]
     = S754_finite false 7205759403792795 (-55)
  /\ F64.eqb (nanmean [Demo.f0_1; Demo.f0_3; Demo.f0_2])
       (nanmean [Demo.f0_1; Demo.f0_3; F64.nan])
     = false.
Proof. vm_compute. repeat split. Qed.

(** In whatever order the three numbers are added, the mean of the filled
    column is not 0.2. *)
Lemma filled_mean_differs_in_any_order :
  let a := Demo.f0_1 in
  let b := Demo.f0_3 in
  let c := Demo.f0_2 in
  let third s := F64.div s (F64.of_nat 3) in
  forallb (fun s => negb (F64.eqb (third s) c))
    [F64.add (F64.add a b) c; F64.add a (F64.add b c);
     F64.add (F64.add a c) b; F64.add a (F64.add c b);
     F64.add (F64.add b a) c; F64.add b (F64.add a c);
     F64.add (F64.add b c) a; F64.add b (F64.add c a);
     F64.add (F64.add c a) b; F64.add c (F64.add a b);
     F64.add (F64.add c b) a; F64.add c (F64.add b a)]
  = true.
Proof. vm_compute. reflexivity. Qed.

(** A column with no present value has no mean, and the fill leaves it
    as it is. *)
Example fill_mean_of_nothing :
  nanmean [F64.nan; F64.nan] = F64.nan
  /\ fst (transform_data Demo.parse_datetime
            (Some [("Id", Int64 [1; 2]); ("Reading", Float64 [F64.nan; F64.nan])])
            Demo.fresh)
     = Ok (Some [("Id", Int64 [1; 2]); ("Reading", Float64 [F64.nan; F64.nan])]).
Proof. vm_compute. split; reflexivity. Qed.

(** An object column with no present value has no mode: [mode()[0]]
    raises. *)
Example fill_mode_of_nothing :
  fst (transform_data Demo.parse_datetime
         (Some [("City", Object [None; None])]) Demo.fresh)
  = Raised (KeyError "0").
Proof. reflexivity. Qed.

(** ** The pipeline, when every stage succeeds *)

Example run_etl_pipeline_one_row :
  let body := ("Date,Value" ++ newline ++ "hello,10" ++ newline)%string in
  let w := run_etl_pipeline (Demo.http_fixed 200 body) Demo.csv_one_row
             Demo.parse_datetime Demo.engine_ok Demo.sql_ok
             "Mon Jan  1 06:40:00 2024" "Mon Jan  1 06:40:01 2024"
             "http://host/data.csv" "sqlite:///health_data.db" "processed_health_stats"
             Demo.fresh in
  fst w = Ok tt
  /\ db (snd w) "sqlite:///health_data.db" "processed_health_stats"
     = Some [("Date", Datetime64 [None]); ("Value", Int64 [10])]
  /\ trace (snd w)
     = [Print (LPipelineStarted "Mon Jan  1 06:40:00 2024");
        Enter Fetcher; Print (LAttempt "http://host/data.csv");
        HttpGet "http://host/data.csv"; Print (LExtracted "http://host/data.csv");
        Enter Cleaner; Print LTransformStart; Print LDateWarning; Print LTransformDone;
        Enter Loader; CreateEngine "sqlite:///health_data.db";
        ToSql "sqlite:///health_data.db" "processed_health_stats"
          [("Date", Datetime64 [None]); ("Value", Int64 [10])];
        Print (LLoaded "processed_health_stats" "sqlite:///health_data.db");
        Print (LPipelineFinished "Mon Jan  1 06:40:01 2024")].
Proof. vm_compute. repeat split. Qed.

(** The cleaner on what [read_csv] makes of
    ["Date,Value\n2020-01-01,10\n,20\n2020-01-01,10\n"]: the empty date
    is filled with the mode of the column before the dates are parsed. *)
Example transform_data_scenario :
  transform_data Demo.parse_datetime
    (Some [("Date", Object [Some "2020-01-01"; None; Some "2020-01-01"]);
           ("Value", Int64 [10; 20; 10])])
    Demo.fresh
  = (Ok (Some [("Date", Datetime64 [Some 1577836800000000000; Some 1577836800000000000]);
               ("Value", Int64 [10; 20])]),
     mkWorld
       [Enter Cleaner; Print LTransformStart; Print (LFilledMode "Date");
        Print (LRemovedDuplicates 1); Print LDateConverted; Print LTransformDone]
       Demo.empty_store).
Proof. vm_compute. reflexivity. Qed.

Example render_removed :
  render (LRemovedDuplicates 12) = "  Removed 12 duplicate rows.".
Proof. reflexivity. Qed.

(** * Further properties *)

(** ** The loader on a frame *)

Section Loader.

Variable engine_fault : string -> option exn.
Variable sql : string -> string -> frame -> sql_outcome.

Lemma load_data_run df db_url table_name w :
  load_data engine_fault sql (Some df) db_url table_name w
  = (Ok tt,
     mkWorld (trace w ++ load_events engine_fault sql df db_url table_name)
       (loaded_store engine_fault sql df db_url table_name (db w))).
Proof.
  unfold load_data, load_events, loaded_store, try_except, create_engine, to_sql,
    replace_table, bind, print, emit, ret, raise.
  simpl. destruct (engine_fault db_url) as [e |]; simpl.
  - rewrite <- !app_assoc. reflexivity.
  - destruct (sql db_url table_name df) as [| e left_behind]; simpl;
      rewrite <- !app_assoc; reflexivity.
Qed.

Lemma store_set_same s db_url table_name contents :
  store_set s db_url table_name contents db_url table_name = contents.
Proof. unfold store_set. now rewrite !String.eqb_refl. Qed.

Lemma store_set_elsewhere s db_url table_name contents :
  same_elsewhere db_url table_name s (store_set s db_url table_name contents).
Proof.
  intros u t H. unfold elsewhere in H. unfold store_set.
  apply negb_true_iff in H. now rewrite H.
Qed.

Lemma same_elsewhere_refl db_url table_name s : same_elsewhere db_url table_name s s.
Proof. intros u t _. reflexivity. Qed.

Lemma same_elsewhere_trans db_url table_name s1 s2 s3 :
  same_elsewhere db_url table_name s1 s2 -> same_elsewhere db_url table_name s2 s3 ->
  same_elsewhere db_url table_name s1 s3.
Proof. intros H12 H23 u t H. now rewrite (H23 u t H), (H12 u t H). Qed.

Lemma loaded_store_elsewhere df db_url table_name s :
  same_elsewhere db_url table_name s
    (loaded_store engine_fault sql df db_url table_name s).
Proof.
  unfold loaded_store. destruct (engine_fault db_url).
  - apply same_elsewhere_refl.
  - destruct (sql db_url table_name df); apply store_set_elsewhere.
Qed.

(** X1. When the engine is created and the write goes through, the loader
    returns after one engine, one write and the success line; the table
    then holds the frame, whatever it held before, and every other table
    holds what it held. *)
Theorem load_data_replaces_table :
  forall df db_url table_name w,
    engine_fault db_url = None ->
    sql db_url table_name df = SqlDone ->
    exists s,
      load_data engine_fault sql (Some df) db_url table_name w
      = (Ok tt,
         mkWorld
           (trace w ++ [Enter Loader; CreateEngine db_url; ToSql db_url table_name df;
                        Print (LLoaded table_name db_url)])
           s)
      /\ s db_url table_name = Some df
      /\ same_elsewhere db_url table_name (db w) s.
Proof.
  intros df db_url table_name w He Hs.
  exists (store_set (db w) db_url table_name (Some df)).
  rewrite load_data_run. unfold load_events, loaded_store. rewrite He, Hs.
  split; [reflexivity |]. split; [apply store_set_same | apply store_set_elsewhere].
Qed.

(** X2. The loader on a frame never raises, whatever the engine and the
    store do.  It asks for one engine, leaves every table but its own as it
    was, and ends on one line: the success line exactly when the engine was
    created and the write went through, the error line with the text of
    the exception in every other case. *)
Theorem load_data_absorbs :
  forall df db_url table_name w,
    exists evs l,
      load_data engine_fault sql (Some df) db_url table_name w
      = (Ok tt,
         mkWorld (trace w ++ Enter Loader :: CreateEngine db_url :: evs ++ [Print l])
           (loaded_store engine_fault sql df db_url table_name (db w)))
      /\ same_elsewhere db_url table_name (db w)
           (loaded_store engine_fault sql df db_url table_name (db w))
      /\ (evs = [] \/ evs = [ToSql db_url table_name df])
      /\ ((l = LLoaded table_name db_url
           /\ engine_fault db_url = None /\ sql db_url table_name df = SqlDone)
          \/ (exists e, l = LLoadError (exn_msg e)
                /\ (engine_fault db_url = Some e
                    \/ (engine_fault db_url = None
                        /\ exists left_behind,
                             sql db_url table_name df = SqlFailed e left_behind)))).
Proof.
  intros df db_url table_name w. rewrite load_data_run.
  pose proof (loaded_store_elsewhere df db_url table_name (db w)) as Hframe.
  unfold load_events.
  destruct (engine_fault db_url) as [e |] eqn:He.
  - exists [], (LLoadError (exn_msg e)). split; [reflexivity |].
    split; [exact Hframe |]. split; [now left |]. right. exists e. auto.
  - destruct (sql db_url table_name df) as [| e left_behind] eqn:Hs.
    + exists [ToSql db_url table_name df], (LLoaded table_name db_url).
      split; [reflexivity |]. split; [exact Hframe |]. split; [now right |]. now left.
    + exists [ToSql db_url table_name df], (LLoadError (exn_msg e)).
      split; [reflexivity |]. split; [exact Hframe |]. split; [now right |].
      right. exists e. split; [reflexivity |]. right. split; [reflexivity |].
      now exists left_behind.
Qed.

(** X3. When [create_engine] raises, the loader issues no write: it prints
    the error and returns, and every table is as it was. *)
Theorem load_data_without_engine :
  forall df db_url table_name w e,
    engine_fault db_url = Some e ->
    load_data engine_fault sql (Some df) db_url table_name w
    = (Ok tt,
       mkWorld
         (trace w ++ [Enter Loader; CreateEngine db_url; Print (LLoadError (exn_msg e))])
         (db w)).
Proof.
  intros df db_url table_name w e He.
  rewrite load_data_run. unfold load_events, loaded_store. now rewrite He.
Qed.

End Loader.

(** X1 on a store that holds three rows in the table and a table more. *)
Lemma load_data_replaces_table_witness :
  exists s,
    load_data Demo.engine_ok Demo.sql_ok (Some Demo.plain)
      "sqlite:///health_data.db" "processed_health_stats"
      (mkWorld [] Faults.stocked)
    = (Ok tt,
       mkWorld
         (trace (mkWorld [] Faults.stocked) ++
          [Enter Loader; CreateEngine "sqlite:///health_data.db";
           ToSql "sqlite:///health_data.db" "processed_health_stats" Demo.plain;
           Print (LLoaded "processed_health_stats" "sqlite:///health_data.db")])
         s)
    /\ s "sqlite:///health_data.db" "processed_health_stats" = Some Demo.plain
    /\ same_elsewhere "sqlite:///health_data.db" "processed_health_stats"
         (db (mkWorld [] Faults.stocked)) s.
Proof.
  apply (load_data_replaces_table Demo.engine_ok Demo.sql_ok Demo.plain
           "sqlite:///health_data.db" "processed_health_stats"
           (mkWorld [] Faults.stocked)); reflexivity.
Defined.

(** X3 on a connection string the engine refuses. *)
Lemma load_data_without_engine_witness :
  load_data Faults.engine_refused Demo.sql_ok (Some Demo.plain)
    "sqlite//health_data.db" "processed_health_stats" (mkWorld [] Faults.stocked)
  = (Ok tt,
     mkWorld
       (trace (mkWorld [] Faults.stocked) ++
        [Enter Loader; CreateEngine "sqlite//health_data.db";
         Print (LLoadError (exn_msg (OtherException "Could not parse SQLAlchemy URL")))])
       (db (mkWorld [] Faults.stocked))).
Proof.
  apply (load_data_without_engine Faults.engine_refused Demo.sql_ok Demo.plain
           "sqlite//health_data.db" "processed_health_stats" (mkWorld [] Faults.stocked)
           (OtherException "Could not parse SQLAlchemy URL")).
  reflexivity.
Defined.

(** ** What a stage does to the stores *)

Section Frames.

Variable R : store -> store -> Prop.
Hypothesis R_refl : forall s, R s s.
Hypothesis R_trans : forall s1 s2 s3, R s1 s2 -> R s2 s3 -> R s1 s3.

Lemma frames_ret {A} (a : A) : frames (ret a) R.
Proof. intros w. apply R_refl. Qed.

Lemma frames_raise {A} e : frames (@raise A e) R.
Proof. intros w. apply R_refl. Qed.

Lemma frames_emit e : frames (emit e) R.
Proof. intros w. apply R_refl. Qed.

Lemma frames_print l : frames (print l) R.
Proof. apply frames_emit. Qed.

Lemma frames_bind {A B} (m : M A) (k : A -> M B) :
  frames m R -> (forall a, frames (k a) R) -> frames (bind m k) R.
Proof.
  intros Hm Hk w. unfold bind. specialize (Hm w).
  destruct (m w) as [[a | e] w1]; simpl in *; [| exact Hm].
  apply R_trans with (db w1); [exact Hm | apply Hk].
Qed.

Lemma frames_try_except {A} (body : M A) (handler : exn -> M A) :
  frames body R -> (forall e, frames (handler e) R) -> frames (try_except body handler) R.
Proof.
  intros Hb Hh w. unfold try_except. specialize (Hb w).
  destruct (body w) as [[a | e] w1]; simpl in *; [exact Hb |].
  apply R_trans with (db w1); [exact Hb | apply Hh].
Qed.

Lemma frames_for_each {A S} (xs : list A) (body : A -> S -> M S) :
  (forall x s, frames (body x s) R) -> forall s, frames (for_each xs body s) R.
Proof.
  intros Hbody. induction xs as [| x xs IH]; intros s; simpl.
  - apply frames_ret.
  - apply frames_bind; [apply Hbody | apply IH].
Qed.

End Frames.

Ltac stores_equal := intros; congruence.

Ltac still_step :=
  lazymatch goal with
  | |- frames (ret _) _ => apply frames_ret; stores_equal
  | |- frames (raise _) _ => apply frames_raise; stores_equal
  | |- frames (print _) _ => apply frames_print; stores_equal
  | |- frames (emit _) _ => apply frames_emit; stores_equal
  | |- frames (bind _ _) _ => apply frames_bind; [stores_equal | | intros ?]
  | |- frames (for_each _ _ _) _ =>
      apply frames_for_each; [stores_equal | stores_equal | intros ? ?]
  | |- frames (try_except _ _) _ =>
      apply frames_try_except; [stores_equal | | intros ?]
  end.

Ltac still := repeat still_step.

Lemma fill_mean_still col df : frames (fill_mean col df) eq.
Proof.
  unfold fill_mean. destruct (get_col col df) as [c |]; [| still].
  destruct (any (isnull c)); [| still]. destruct c; still.
Qed.

Lemma fill_mode_still col df : frames (fill_mode col df) eq.
Proof.
  unfold fill_mode. destruct (get_col col df) as [c |]; [| still].
  destruct (any (isnull c)); [| still]. destruct c; still.
  destruct (mode xs); still.
Qed.

Lemma convert_date_still parse_datetime df : frames (convert_date parse_datetime df) eq.
Proof.
  intros w. rewrite convert_date_run. reflexivity.
Qed.

Lemma remove_duplicates_still df : frames (remove_duplicates df) eq.
Proof.
  intros w. rewrite remove_duplicates_run. reflexivity.
Qed.

Lemma transform_data_still parse_datetime df : frames (transform_data parse_datetime df) eq.
Proof.
  unfold transform_data. destruct df as [df |]; [| still].
  still.
  - apply fill_mean_still.
  - apply fill_mode_still.
  - apply remove_duplicates_still.
  - apply convert_date_still.
Qed.

(** ** What a stage leaves in the trace *)

Section Printing.

Variable P : event -> Prop.
Hypothesis P_print : forall l, P (Print l).

Ltac printing_step :=
  lazymatch goal with
  | |- satisfies (ret _) _ _ => apply satisfies_ret; exact I
  | |- satisfies (raise _) _ _ => apply satisfies_raise
  | |- satisfies (print _) _ _ => apply satisfies_print; [apply P_print | exact I]
  | |- satisfies (bind _ _) _ _ =>
      apply satisfies_bind with (Q := anything); [| intros ? _]
  end.

Ltac printing := repeat printing_step.

Lemma fill_mean_prints col df : satisfies (fill_mean col df) P anything.
Proof.
  unfold fill_mean. destruct (get_col col df) as [c |]; [| printing].
  destruct (any (isnull c)); [| printing]. destruct c; printing.
Qed.

Lemma fill_mode_prints col df : satisfies (fill_mode col df) P anything.
Proof.
  unfold fill_mode. destruct (get_col col df) as [c |]; [| printing].
  destruct (any (isnull c)); [| printing]. destruct c; printing.
  destruct (mode xs); printing.
Qed.

Lemma remove_duplicates_prints df : satisfies (remove_duplicates df) P anything.
Proof.
  unfold remove_duplicates. printing. destruct (_ <? _)%nat; printing.
Qed.

Lemma convert_date_prints parse_datetime df :
  satisfies (convert_date parse_datetime df) P anything.
Proof.
  unfold convert_date. destruct (has_column "Date" df); [| printing].
  destruct (get_col "Date" df) as [c |]; [| printing].
  destruct (get_col "Date" (set_col _ _ _)) as [c' |]; [| printing].
  printing. destruct (any (isnull c')); printing.
Qed.

(** After its entry the cleaner prints and does nothing else. *)
Lemma transform_data_prints parse_datetime df :
  P (Enter Cleaner) -> satisfies (transform_data parse_datetime df) P anything.
Proof.
  intros P_enter. unfold transform_data.
  apply satisfies_bind with (Q := anything);
    [apply satisfies_emit; [exact P_enter | exact I] | intros _ _].
  destruct df as [df |]; [| printing].
  apply satisfies_bind with (Q := anything); [printing | intros _ _].
  apply satisfies_bind with (Q := anything);
    [apply satisfies_for_each; intros; apply fill_mean_prints | intros df1 _].
  apply satisfies_bind with (Q := anything);
    [apply satisfies_for_each; intros; apply fill_mode_prints | intros df2 _].
  apply satisfies_bind with (Q := anything); [apply remove_duplicates_prints | intros df3 _].
  apply satisfies_bind with (Q := anything); [apply convert_date_prints | intros df4 _].
  printing.
Qed.

End Printing.

(** X4. The cleaner, whatever it is given and whether it returns or
    raises, only prints: after the record of its entry every event of its
    run is a printed line, so it sends no request, creates no engine and
    issues no write, and the stores are as they were. *)
Theorem transform_data_only_prints :
  forall parse_datetime df w,
    (exists evs,
        trace (snd (transform_data parse_datetime df w))
        = trace w ++ Enter Cleaner :: evs
        /\ forallb is_print evs = true)
    /\ db (snd (transform_data parse_datetime df w)) = db w.
Proof.
  intros p df w. split.
  - unfold transform_data. unfold bind at 1. simpl.
    set (w1 := mkWorld (trace w ++ [Enter Cleaner]) (db w)).
    set (rest := match df with
                 | Some df0 =>
                     print LTransformStart ;;
                     df1 <- for_each (select_dtypes is_number df0) fill_mean df0 ;;
                     df2 <- for_each (select_dtypes is_object df1) fill_mode df1 ;;
                     df3 <- remove_duplicates df2 ;;
                     df4 <- convert_date p df3 ;;
                     print LTransformDone ;; ret (Some df4)
                 | None => ret None
                 end).
    assert (H : satisfies rest (fun e => is_print e = true) anything).
    { unfold rest. destruct df as [df |]; [| apply satisfies_ret; exact I].
      apply satisfies_bind with (Q := anything);
        [apply satisfies_print; [reflexivity | exact I] | intros _ _].
      apply satisfies_bind with (Q := anything);
        [apply satisfies_for_each; intros; now apply fill_mean_prints | intros df1 _].
      apply satisfies_bind with (Q := anything);
        [apply satisfies_for_each; intros; now apply fill_mode_prints | intros df2 _].
      apply satisfies_bind with (Q := anything);
        [now apply remove_duplicates_prints | intros df3 _].
      apply satisfies_bind with (Q := anything);
        [now apply convert_date_prints | intros df4 _].
      apply satisfies_bind with (Q := anything);
        [apply satisfies_print; [reflexivity | exact I] | intros _ _].
      apply satisfies_ret. exact I. }
    destruct (H w1) as [(evs & Et & Hevs) _].
    exists evs. split.
    + rewrite Et. unfold w1. simpl. now rewrite <- app_assoc.
    + apply forallb_forall. rewrite Forall_forall in Hevs. exact Hevs.
  - symmetry. apply (transform_data_still p df w).
Qed.

(** ** The pipeline, stage by stage *)

Section Run.

Variable http : string -> exn + response.
Variable csv : string -> exn + frame.
Variable parse_datetime : coldata -> cell -> option Z.
Variable engine_fault : string -> option exn.
Variable sql : string -> string -> frame -> sql_outcome.
Variable started finished : string.

(** A run is the three stages in a row, each on the world the one before
    it left. *)
Lemma run_etl_pipeline_stages data_source_url db_url table_name w :
  run_etl_pipeline http csv parse_datetime engine_fault sql started finished
    data_source_url db_url table_name w
  = match extract_data_from_url http csv data_source_url
            (mkWorld (trace w ++ [Print (LPipelineStarted started)]) (db w)) with
    | (Ok None, w2) => (Ok tt, mkWorld (trace w2 ++ [Print LAbortExtract]) (db w2))
    | (Ok (Some raw_data), w2) =>
        match transform_data parse_datetime (Some raw_data) w2 with
        | (Ok None, w3) => (Ok tt, mkWorld (trace w3 ++ [Print LAbortTransform]) (db w3))
        | (Ok (Some transformed_data), w3) =>
            (Ok tt,
             mkWorld
               (trace w3
                ++ load_events engine_fault sql transformed_data db_url table_name
                ++ [Print (LPipelineFinished finished)])
               (loaded_store engine_fault sql transformed_data db_url table_name (db w3)))
        | (Raised e, w3) => (Raised e, w3)
        end
    | (Raised e, w2) => (Raised e, w2)
    end.
Proof.
  unfold run_etl_pipeline. unfold bind at 1. simpl. unfold bind at 1.
  destruct (extract_data_from_url http csv data_source_url _) as [[[raw |] | e] w2];
    try reflexivity.
  unfold bind at 1.
  destruct (transform_data parse_datetime (Some raw) w2) as [[[out |] | e] w3];
    try reflexivity.
  unfold bind. rewrite load_data_run. unfold print, emit. cbn [trace db].
  now rewrite <- app_assoc.
Qed.

(** X5. When the request is answered with a status that is no error and
    a body that parses to a frame with distinct labels and a mode in every
    object column, the run returns, and its trace is that of the fetcher,
    the cleaner and the loader in a row between the two lines of the
    pipeline: the loader is given the cleaned frame, the line of the end is
    printed whether the load went through or not, and when it went through
    the table holds the cleaned frame. *)
Theorem run_etl_pipeline_loads_cleaned :
  forall data_source_url db_url table_name w resp df,
    http data_source_url = inr resp ->
    http_error (status_code resp) = false ->
    csv (text resp) = inr df ->
    unique_labels (columns df) = true ->
    imputable df = true ->
    let out := cleaned parse_datetime df in
    let w' := snd (run_etl_pipeline http csv parse_datetime engine_fault sql
                     started finished data_source_url db_url table_name w) in
    fst (run_etl_pipeline http csv parse_datetime engine_fault sql
           started finished data_source_url db_url table_name w) = Ok tt
    /\ trace w'
       = trace w
         ++ Print (LPipelineStarted started)
            :: fetch_events data_source_url (LExtracted data_source_url)
         ++ Enter Cleaner :: Print LTransformStart
            :: cleaning_events parse_datetime df ++ [Print LTransformDone]
         ++ load_events engine_fault sql out db_url table_name
         ++ [Print (LPipelineFinished finished)]
    /\ db w' = loaded_store engine_fault sql out db_url table_name (db w)
    /\ (engine_fault db_url = None -> sql db_url table_name out = SqlDone ->
        db w' db_url table_name = Some out).
Proof.
  intros url db_url table_name w resp df Hh He Hc Hu Hi out w'.
  apply unique_labels_NoDup in Hu.
  assert (Hrun :
    run_etl_pipeline http csv parse_datetime engine_fault sql started finished
      url db_url table_name w
    = (Ok tt,
       mkWorld
         (trace w
          ++ Print (LPipelineStarted started) :: fetch_events url (LExtracted url)
          ++ Enter Cleaner :: Print LTransformStart
             :: cleaning_events parse_datetime df ++ [Print LTransformDone]
          ++ load_events engine_fault sql out db_url table_name
          ++ [Print (LPipelineFinished finished)])
         (loaded_store engine_fault sql out db_url table_name (db w)))).
  { rewrite run_etl_pipeline_stages.
    rewrite (extract_data_from_url_parsed http csv url _ resp df Hh He Hc).
    rewrite (transform_data_run parse_datetime df _ Hu Hi). simpl.
    fold out. f_equal. f_equal.
    rewrite <- !app_assoc. simpl. rewrite <- !app_assoc. reflexivity. }
  unfold w'. rewrite Hrun. simpl.
  split; [reflexivity |]. split; [reflexivity |]. split; [reflexivity |].
  intros Hef Hsql. unfold loaded_store. rewrite Hef, Hsql. apply store_set_same.
Qed.

Lemma extract_data_from_url_some url w df :
  fst (extract_data_from_url http csv url w) = Ok (Some df) ->
  exists resp,
    http url = inr resp /\ http_error (status_code resp) = false
    /\ csv (text resp) = inr df.
Proof.
  intros H.
  destruct (extract_data_from_url_cases http csv url w) as (r & l & Hrun & Hcases).
  rewrite Hrun in H. simpl in H. injection H as ->.
  destruct Hcases as [(resp & df' & Hh & He & Hc & Hr & _) | (Hr & _)];
    [| discriminate Hr].
  injection Hr as ->. now exists resp.
Qed.

(** X6. With a reader whose frames have distinct labels and a mode in
    every object column, as those of [read_csv] have, no run raises,
    whatever the network, the engine and the store do.  A run ends on the
    abort-at-extract line when the fetcher returned the sentinel and on the
    line of the end when it returned a frame. *)
Theorem run_etl_pipeline_never_raises :
  reads_typed_frames csv ->
  forall data_source_url db_url table_name w,
    let run := run_etl_pipeline http csv parse_datetime engine_fault sql
                 started finished data_source_url db_url table_name w in
    fst run = Ok tt
    /\ exists evs l,
         trace (snd run) = trace w ++ evs ++ [Print l]
         /\ ((l = LAbortExtract
              /\ fst (extract_data_from_url http csv data_source_url w) = Ok None)
             \/ (l = LPipelineFinished finished
                 /\ exists df,
                      fst (extract_data_from_url http csv data_source_url w)
                      = Ok (Some df))).
Proof.
  intros Htyped url db_url table_name w. simpl.
  set (w1 := mkWorld (trace w ++ [Print (LPipelineStarted started)]) (db w)).
  rewrite run_etl_pipeline_stages. fold w1.
  rewrite (extract_data_from_url_result http csv url w w1).
  destruct (extract_data_from_url_cases http csv url w1) as (r & l & Hrun & Hcases).
  rewrite Hrun. simpl.
  destruct Hcases as [(resp & df & Hh & He & Hc & -> & ->) | (-> & Hl & _)].
  - destruct (Htyped _ _ Hc) as [Hu Hi]. apply unique_labels_NoDup in Hu.
    rewrite (transform_data_run parse_datetime df _ Hu Hi). simpl.
    split; [reflexivity |].
    exists (Print (LPipelineStarted started) :: fetch_events url (LExtracted url)
            ++ Enter Cleaner :: Print LTransformStart
               :: cleaning_events parse_datetime df ++ [Print LTransformDone]
            ++ load_events engine_fault sql (cleaned parse_datetime df) db_url table_name),
      (LPipelineFinished finished).
    split.
    + rewrite <- !app_assoc. simpl. rewrite <- !app_assoc. reflexivity.
    + right. split; [reflexivity |]. now exists df.
  - split; [reflexivity |].
    exists (Print (LPipelineStarted started) :: fetch_events url l), LAbortExtract.
    split.
    + simpl. rewrite <- !app_assoc. reflexivity.
    + left. split; reflexivity.
Qed.

End Run.

(** ** The pipeline, whatever happens *)

Section RunFrame.

Variable http : string -> exn + response.
Variable csv : string -> exn + frame.
Variable parse_datetime : coldata -> cell -> option Z.
Variable engine_fault : string -> option exn.
Variable sql : string -> string -> frame -> sql_outcome.
Variable started finished : string.

Lemma confined_print db_url table_name l : confined db_url table_name (Print l).
Proof. split; [reflexivity | discriminate]. Qed.

Lemma confined_prints db_url table_name evs :
  forallb is_print evs = true -> Forall (confined db_url table_name) evs.
Proof.
  rewrite forallb_forall, Forall_forall. intros H e He. specialize (H e He).
  destruct e; try discriminate. apply confined_print.
Qed.

Lemma confined_load_events df db_url table_name :
  Forall (confined db_url table_name)
    (load_events engine_fault sql df db_url table_name).
Proof.
  unfold load_events.
  constructor; [split; [reflexivity | discriminate] |].
  constructor; [split; [reflexivity | discriminate] |].
  assert (Hw : confined db_url table_name (ToSql db_url table_name df)).
  { split; [reflexivity |]. intros u t d E. injection E as <- <- _. auto. }
  destruct (engine_fault db_url).
  - constructor; [apply confined_print | constructor].
  - constructor; [exact Hw |].
    destruct (sql db_url table_name df);
      (constructor; [apply confined_print | constructor]).
Qed.

(** X7. With a reader whose frames have distinct labels, an exception
    leaves a run from the cleaner only.  The fetcher had then returned a
    frame with an object column without a mode; the run printed its first
    line, went through the fetcher and entered the cleaner, which printed
    and raised; the loader was not entered and the stores are as they
    were. *)
Theorem run_etl_pipeline_raises_from_cleaner :
  reads_distinct_labels csv ->
  forall data_source_url db_url table_name w e,
    let run := run_etl_pipeline http csv parse_datetime engine_fault sql
                 started finished data_source_url db_url table_name w in
    fst run = Raised e ->
    exists df evs,
      fst (extract_data_from_url http csv data_source_url w) = Ok (Some df)
      /\ unique_labels (columns df) = true
      /\ imputable df = false
      /\ fst (transform_data parse_datetime (Some df)
                (mkWorld
                   (trace w
                    ++ Print (LPipelineStarted started)
                       :: fetch_events data_source_url (LExtracted data_source_url))
                   (db w)))
         = Raised e
      /\ trace (snd run)
         = trace w
           ++ Print (LPipelineStarted started)
              :: fetch_events data_source_url (LExtracted data_source_url)
           ++ Enter Cleaner :: evs
      /\ forallb is_print evs = true
      /\ db (snd run) = db w.
Proof.
  intros Hlabels url db_url table_name w e. simpl.
  set (w1 := mkWorld (trace w ++ [Print (LPipelineStarted started)]) (db w)).
  rewrite run_etl_pipeline_stages. fold w1.
  rewrite (extract_data_from_url_result http csv url w w1).
  destruct (extract_data_from_url_cases http csv url w1) as (r & l & Hrun & Hcases).
  rewrite Hrun. simpl.
  destruct Hcases as [(resp & df & Hh & He & Hc & -> & ->) | (-> & Hl & _)];
    [| discriminate].
  replace (trace w ++ [Print (LPipelineStarted started)] ++ fetch_events url (LExtracted url))
    with (trace w ++ Print (LPipelineStarted started) :: fetch_events url (LExtracted url))
    by reflexivity.
  rewrite <- app_assoc. simpl.
  set (w2 := mkWorld
               (trace w ++ Print (LPipelineStarted started)
                           :: fetch_events url (LExtracted url))
               (db w)).
  destruct (transform_data_only_prints parse_datetime (Some df) w2)
    as [(evs & Et & Hevs) Hdb].
  destruct (transform_data parse_datetime (Some df) w2) as [[[out |] | e'] w3] eqn:Ht;
    simpl in *; try discriminate.
  intros E. injection E as ->.
  pose proof (Hlabels _ _ Hc) as Hu.
  exists df, evs. split; [reflexivity |]. split; [exact Hu |]. split.
  { destruct (imputable df) eqn:Hi; [| reflexivity].
    apply unique_labels_NoDup in Hu.
    rewrite (transform_data_run parse_datetime df w2 Hu Hi) in Ht. discriminate. }
  split; [fold w2; now rewrite Ht |]. split.
  { rewrite Et. unfold w2. simpl. rewrite <- app_assoc. reflexivity. }
  split; [exact Hevs | exact Hdb].
Qed.

(** X8. Every run, however it ends, calls [requests.get] once, on the
    source it was given, before anything else it does outside; what
    follows is no such call and no write to another table than the
    destination; and every other table holds at the end what it held at
    the start. *)
Theorem run_etl_pipeline_confined :
  forall data_source_url db_url table_name w,
    let run := run_etl_pipeline http csv parse_datetime engine_fault sql
                 started finished data_source_url db_url table_name w in
    exists l rest,
      trace (snd run)
      = trace w
        ++ [Print (LPipelineStarted started); Enter Fetcher;
            Print (LAttempt data_source_url); HttpGet data_source_url; Print l]
        ++ rest
      /\ Forall (confined db_url table_name) rest
      /\ same_elsewhere db_url table_name (db w) (db (snd run)).
Proof.
  intros url db_url table_name w. cbv zeta.
  set (w1 := mkWorld (trace w ++ [Print (LPipelineStarted started)]) (db w)).
  rewrite run_etl_pipeline_stages. fold w1.
  destruct (extract_data_from_url_cases http csv url w1) as (r & l & Hrun & _).
  rewrite Hrun. exists l.
  destruct r as [df |].
  - set (w2 := mkWorld (trace w1 ++ fetch_events url l) (db w1)).
    destruct (transform_data_only_prints parse_datetime (Some df) w2)
      as [(evs & Et & Hevs) Hdb].
    pose proof (confined_prints db_url table_name evs Hevs) as Hc.
    assert (Hin : confined db_url table_name (Enter Cleaner))
      by (split; [reflexivity | discriminate]).
    destruct (transform_data parse_datetime (Some df) w2) as [[[out |] | e] w3];
      cbn [fst snd trace db] in *; rewrite Et, Hdb; unfold w2, w1; cbn [trace db].
    + exists (Enter Cleaner :: evs
              ++ load_events engine_fault sql out db_url table_name
              ++ [Print (LPipelineFinished finished)]).
      split; [rewrite <- !app_assoc; reflexivity |]. split.
      * constructor; [exact Hin |]. apply Forall_app. split; [exact Hc |].
        apply Forall_app. split; [apply confined_load_events |].
        constructor; [apply confined_print | constructor].
      * apply loaded_store_elsewhere.
    + exists (Enter Cleaner :: evs ++ [Print LAbortTransform]).
      split; [rewrite <- !app_assoc; reflexivity |]. split.
      * constructor; [exact Hin |]. apply Forall_app. split; [exact Hc |].
        constructor; [apply confined_print | constructor].
      * apply same_elsewhere_refl.
    + exists (Enter Cleaner :: evs).
      split; [rewrite <- !app_assoc; reflexivity |]. split.
      * constructor; [exact Hin | exact Hc].
      * apply same_elsewhere_refl.
  - cbn [fst snd trace db]. unfold w1. cbn [trace db].
    exists [Print LAbortExtract]. split; [rewrite <- !app_assoc; reflexivity |]. split.
    + constructor; [apply confined_print | constructor].
    + apply same_elsewhere_refl.
Qed.

End RunFrame.

(** X5 on a server that answers with one row of CSV. *)
Lemma run_etl_pipeline_loads_cleaned_witness :
  let body := ("Date,Value" ++ newline ++ "hello,10" ++ newline)%string in
  let run := run_etl_pipeline (Demo.http_fixed 200 body) Demo.csv_one_row
               Demo.parse_datetime Demo.engine_ok Faults.disk_full
               "Mon Jan  1 06:40:00 2024" "Mon Jan  1 06:40:01 2024"
               "http://host/data.csv" "sqlite:///health_data.db" "processed_health_stats"
               Demo.fresh in
  fst run = Ok tt
  /\ last (trace (snd run)) (Enter Fetcher)
     = Print (LPipelineFinished "Mon Jan  1 06:40:01 2024").
Proof.
  destruct (run_etl_pipeline_loads_cleaned
              (Demo.http_fixed 200 ("Date,Value" ++ newline ++ "hello,10" ++ newline)%string)
              Demo.csv_one_row Demo.parse_datetime Demo.engine_ok Faults.disk_full
              "Mon Jan  1 06:40:00 2024" "Mon Jan  1 06:40:01 2024"
              "http://host/data.csv" "sqlite:///health_data.db" "processed_health_stats"
              Demo.fresh
              (mkResponse 200 "" ("Date,Value" ++ newline ++ "hello,10" ++ newline)%string)
              Demo.one_row)
    as (Hok & Htrace & _); try reflexivity.
  cbv zeta. split; [exact Hok |]. rewrite Htrace. reflexivity.
Defined.

Lemma csv_one_row_typed : reads_typed_frames Demo.csv_one_row.
Proof.
  intros body df. unfold Demo.csv_one_row.
  destruct (String.eqb body _); [| discriminate].
  intros E. injection E as <-. split; reflexivity.
Defined.

(** X6 on a server that is down. *)
Lemma run_etl_pipeline_never_raises_witness :
  fst (run_etl_pipeline Demo.http_down Demo.csv_one_row Demo.parse_datetime
         Faults.engine_refused Faults.disk_full
         "Mon Jan  1 06:40:00 2024" "Mon Jan  1 06:40:01 2024"
         "http://host/data.csv" "sqlite:///health_data.db" "processed_health_stats"
         Demo.fresh)
  = Ok tt.
Proof.
  exact (proj1 (run_etl_pipeline_never_raises Demo.http_down Demo.csv_one_row
                  Demo.parse_datetime Faults.engine_refused Faults.disk_full
                  "Mon Jan  1 06:40:00 2024" "Mon Jan  1 06:40:01 2024"
                  csv_one_row_typed
                  "http://host/data.csv" "sqlite:///health_data.db"
                  "processed_health_stats" Demo.fresh)).
Defined.

Lemma csv_hollow_distinct : reads_distinct_labels Faults.csv_hollow.
Proof. intros body df E. injection E as <-. reflexivity. Defined.

(** X7 on a reader that makes a frame with an object column without values. *)
Lemma run_etl_pipeline_raises_from_cleaner_witness :
  exists df evs,
    fst (extract_data_from_url http_ok Faults.csv_hollow "http://host/data.csv" Demo.fresh)
    = Ok (Some df)
    /\ unique_labels (columns df) = true
    /\ imputable df = false
    /\ forallb is_print evs = true.
Proof.
  destruct (run_etl_pipeline_raises_from_cleaner http_ok Faults.csv_hollow
              Demo.parse_datetime Demo.engine_ok Demo.sql_ok
              "Mon Jan  1 06:40:00 2024" "Mon Jan  1 06:40:01 2024"
              csv_hollow_distinct
              "http://host/data.csv" "sqlite:///health_data.db" "processed_health_stats"
              Demo.fresh (KeyError "0"))
    as (df & evs & H1 & H2 & H3 & _ & _ & H5 & _); [reflexivity |].
  exists df, evs. auto.
Defined.

(** ** The shape of the cleaned frame *)

Lemma col_len_mean_filled c : col_len (mean_filled c) = col_len c.
Proof.
  destruct c; simpl; try reflexivity.
  destruct (any (map F64.isnan xs)); simpl; [apply length_map | reflexivity].
Qed.

Lemma col_len_mode_filled c : col_len (mode_filled c) = col_len c.
Proof.
  destruct c; simpl; try reflexivity.
  destruct (any (map is_none xs)); [| reflexivity].
  destruct (mode xs); simpl; [reflexivity | apply length_map].
Qed.

Lemma len_on_columns g df :
  (forall c, col_len (g c) = col_len c) -> len (on_columns g df) = len df.
Proof. intros H. destruct df as [| [name c] df]; simpl; auto. Qed.

Lemma aligned_on_columns g df :
  (forall c, col_len (g c) = col_len c) ->
  aligned df = true -> aligned (on_columns g df) = true.
Proof.
  intros H Ha. unfold aligned. rewrite (len_on_columns g df H).
  unfold aligned in Ha. rewrite forallb_forall in *.
  intros c Hc. unfold on_columns in Hc. apply in_map_iff in Hc.
  destruct Hc as (c0 & <- & Hc0). simpl. rewrite H. now apply Ha.
Qed.

Lemma aligned_imputed df : aligned df = true -> aligned (imputed df) = true.
Proof.
  intros H. unfold imputed.
  apply aligned_on_columns; [apply col_len_mode_filled |].
  apply aligned_on_columns; [apply col_len_mean_filled | exact H].
Qed.

Lemma len_imputed df : len (imputed df) = len df.
Proof.
  unfold imputed.
  rewrite len_on_columns by apply col_len_mode_filled.
  apply len_on_columns, col_len_mean_filled.
Qed.

Lemma count_true_negb mask :
  (count_true (map negb mask) + count_true mask = length mask)%nat.
Proof.
  unfold count_true. induction mask as [| [] mask IH]; simpl; lia.
Qed.

Lemma len_drop_duplicates df :
  aligned df = true ->
  (len (drop_duplicates df) + count_true (duplicated df) = len df)%nat.
Proof.
  intros Ha. unfold drop_duplicates.
  rewrite len_frame_select by (rewrite ?length_map; auto using duplicated_length).
  rewrite count_true_negb. now apply duplicated_length.
Qed.

Lemma aligned_drop_duplicates df :
  aligned df = true -> aligned (drop_duplicates df) = true.
Proof.
  intros Ha. apply aligned_frame_select; [exact Ha |].
  rewrite length_map. now apply duplicated_length.
Qed.

Lemma aligned_column df name c :
  aligned df = true -> In (name, c) df -> col_len c = len df.
Proof.
  unfold aligned. rewrite forallb_forall. intros H Hin.
  specialize (H _ Hin). now apply Nat.eqb_eq in H.
Qed.

Lemma len_set_col name v df :
  col_len v = len df -> len (set_col name v df) = len df.
Proof.
  destruct df as [| [l c] df]; [reflexivity |].
  rewrite set_col_cons. simpl. intros H. now destruct (String.eqb name l).
Qed.

Lemma aligned_set_col name v df :
  aligned df = true -> col_len v = len df -> aligned (set_col name v df) = true.
Proof.
  intros Ha Hv. unfold aligned. rewrite (len_set_col name v df Hv).
  unfold aligned in Ha. rewrite forallb_forall in *.
  intros c Hc. unfold set_col in Hc. apply in_map_iff in Hc.
  destruct Hc as (c0 & <- & Hc0).
  destruct (String.eqb name (fst c0)); simpl.
  - now apply Nat.eqb_eq.
  - now apply Ha.
Qed.

Section Shape.

Variable parse_datetime : coldata -> cell -> option Z.

Lemma col_len_to_datetime c : col_len (to_datetime parse_datetime c) = col_len c.
Proof. unfold to_datetime. simpl. now rewrite length_map, col_len_cells. Qed.

Lemma len_date_converted df :
  aligned df = true -> len (date_converted parse_datetime df) = len df.
Proof.
  intros Ha. unfold date_converted.
  destruct (get_col "Date" df) as [c |] eqn:Hc; [| reflexivity].
  apply len_set_col. rewrite col_len_to_datetime.
  apply aligned_column with "Date"; [exact Ha | now apply get_col_Some].
Qed.

Lemma aligned_date_converted df :
  aligned df = true -> aligned (date_converted parse_datetime df) = true.
Proof.
  intros Ha. unfold date_converted.
  destruct (get_col "Date" df) as [c |] eqn:Hc; [| exact Ha].
  apply aligned_set_col; [exact Ha |]. rewrite col_len_to_datetime.
  apply aligned_column with "Date"; [exact Ha | now apply get_col_Some].
Qed.

Lemma columns_cleaned df : columns (cleaned parse_datetime df) = columns df.
Proof.
  unfold cleaned, date_converted, drop_duplicates.
  destruct (get_col "Date" _); rewrite ?columns_set_col, columns_frame_select,
    !columns_on_columns; reflexivity.
Qed.

(** X9. On a frame with distinct labels, aligned columns and a mode in
    every object column, the cleaner returns a frame with the same labels
    in the same order and aligned columns; it has the rows of the input
    less the rows flagged as duplicates after the fills. *)
Theorem transform_data_keeps_shape :
  forall df w,
    unique_labels (columns df) = true ->
    imputable df = true ->
    aligned df = true ->
    exists out,
      fst (transform_data parse_datetime (Some df) w) = Ok (Some out)
      /\ columns out = columns df
      /\ aligned out = true
      /\ (len out + count_true (duplicated (imputed df)) = len df)%nat.
Proof.
  intros df w Hu Hi Ha. apply unique_labels_NoDup in Hu.
  exists (cleaned parse_datetime df).
  split; [now rewrite transform_data_run |].
  split; [apply columns_cleaned |].
  pose proof (aligned_imputed df Ha) as Hai.
  split.
  { unfold cleaned. apply aligned_date_converted. fold (imputed df).
    now apply aligned_drop_duplicates. }
  unfold cleaned. fold (imputed df).
  rewrite len_date_converted by now apply aligned_drop_duplicates.
  rewrite len_drop_duplicates by exact Hai. apply len_imputed.
Qed.

End Shape.

(** X9 on a frame of five rows, two of them duplicates after the fills. *)
Lemma transform_data_keeps_shape_witness :
  exists out,
    fst (transform_data Demo.parse_datetime (Some Demo.measured) Demo.fresh)
    = Ok (Some out)
    /\ columns out = columns Demo.measured
    /\ aligned out = true
    /\ (len out + count_true (duplicated (imputed Demo.measured))
        = len Demo.measured)%nat.
Proof.
  apply (transform_data_keeps_shape Demo.parse_datetime Demo.measured Demo.fresh);
    reflexivity.
Defined.

(** ** The count of removed rows *)

(** X10. On a frame with aligned columns the duplicate step returns the
    frame without the flagged rows, as many rows fewer as rows are flagged,
    and prints their number when there is one, and nothing when there is
    none. *)
Theorem remove_duplicates_counts :
  forall df w,
    aligned df = true ->
    let n := count_true (duplicated df) in
    remove_duplicates df w
    = (Ok (drop_duplicates df),
       mkWorld
         (trace w ++ if (0 <? n)%nat then [Print (LRemovedDuplicates n)] else [])
         (db w))
    /\ (len (drop_duplicates df) + n = len df)%nat.
Proof.
  intros df w Ha n. pose proof (len_drop_duplicates df Ha) as Hlen. fold n in Hlen.
  split; [| exact Hlen].
  rewrite remove_duplicates_run.
  destruct (Nat.ltb_spec (len (drop_duplicates df)) (len df)) as [Hlt | Hge];
    destruct (Nat.ltb_spec 0 n) as [Hn | Hn]; try lia.
  - replace (len df - len (drop_duplicates df))%nat with n by lia. reflexivity.
  - reflexivity.
Qed.

(** X10 on three rows, the third a duplicate of the first. *)
Lemma remove_duplicates_counts_witness :
  remove_duplicates Demo.three_rows Demo.fresh
  = (Ok (drop_duplicates Demo.three_rows),
     mkWorld
       (trace Demo.fresh ++
        if (0 <? count_true (duplicated Demo.three_rows))%nat
        then [Print (LRemovedDuplicates (count_true (duplicated Demo.three_rows)))]
        else [])
       (db Demo.fresh))
  /\ (len (drop_duplicates Demo.three_rows) + count_true (duplicated Demo.three_rows)
      = len Demo.three_rows)%nat.
Proof.
  apply (remove_duplicates_counts Demo.three_rows Demo.fresh). reflexivity.
Defined.

(** ** Duplicates in the cleaned frame *)

Lemma any_repeat_false k : any (repeat false k) = false.
Proof. unfold any. induction k; simpl; auto. Qed.

Lemma duplicated_drop_duplicates df :
  aligned df = true -> any (duplicated (drop_duplicates df)) = false.
Proof.
  intros Ha. unfold duplicated at 1. unfold drop_duplicates.
  rewrite rows_frame_select
    by (rewrite ?length_map; auto using duplicated_length).
  unfold duplicated. rewrite duplicated_from_settled. apply any_repeat_false.
Qed.

Lemma duplicated_flags_earlier df i :
  aligned df = true -> (i < len df)%nat ->
  nth i (duplicated df) false
  = existsb (row_eqb (nth i (rows df) [])) (firstn i (rows df)).
Proof.
  intros Ha Hi. unfold duplicated.
  rewrite (duplicated_from_earlier (rows df) [] [] i); try reflexivity.
  now rewrite rows_length.
Qed.

Lemma has_column_columns name df df' :
  columns df' = columns df -> has_column name df' = has_column name df.
Proof. unfold has_column. now intros ->. Qed.

Section NoDuplicates.

Variable parse_datetime : coldata -> cell -> option Z.

(** X11. The cleaner removes duplicates before it parses the dates.  On a
    frame without a column named "Date" (distinct labels, aligned columns,
    a mode in every object column) the frame it returns has no row equal
    to a row above it. *)
Theorem transform_data_leaves_no_duplicates :
  forall df w,
    unique_labels (columns df) = true ->
    imputable df = true ->
    aligned df = true ->
    has_column "Date" df = false ->
    exists out,
      fst (transform_data parse_datetime (Some df) w) = Ok (Some out)
      /\ any (duplicated out) = false
      /\ forall i, (i < len out)%nat ->
           existsb (row_eqb (nth i (rows out) [])) (firstn i (rows out)) = false.
Proof.
  intros df w Hu Hi Ha Hd. apply unique_labels_NoDup in Hu.
  exists (cleaned parse_datetime df).
  split; [now rewrite transform_data_run |].
  assert (Hc : cleaned parse_datetime df = drop_duplicates (imputed df)).
  { unfold cleaned, date_converted. fold (imputed df).
    destruct (get_col "Date" (drop_duplicates (imputed df))) as [c |] eqn:E;
      [| reflexivity].
    assert (H : has_column "Date" (drop_duplicates (imputed df)) = true)
      by (apply has_column_get_col; eauto).
    rewrite (has_column_columns "Date" df) in H; [congruence |].
    unfold drop_duplicates, imputed.
    now rewrite columns_frame_select, !columns_on_columns. }
  rewrite Hc.
  pose proof (aligned_imputed df Ha) as Hai.
  pose proof (duplicated_drop_duplicates (imputed df) Hai) as Hnone.
  split; [exact Hnone |].
  intros i Hlt.
  pose proof (aligned_drop_duplicates (imputed df) Hai) as Had.
  rewrite <- (duplicated_flags_earlier _ i Had Hlt).
  rewrite (any_false_repeat _ Hnone). apply nth_repeat.
Qed.

End NoDuplicates.

(** X11 on a frame of five rows. *)
Lemma transform_data_leaves_no_duplicates_witness :
  exists out,
    fst (transform_data Demo.parse_datetime (Some Demo.measured) Demo.fresh)
    = Ok (Some out)
    /\ any (duplicated out) = false
    /\ forall i, (i < len out)%nat ->
         existsb (row_eqb (nth i (rows out) [])) (firstn i (rows out)) = false.
Proof.
  apply (transform_data_leaves_no_duplicates Demo.parse_datetime Demo.measured Demo.fresh);
    reflexivity.
Defined.

(** With a column named "Date" equal rows can remain: two rows that
    differ in texts that are no dates are equal once the dates are
    parsed. *)
Example transform_data_leaves_equal_dates :
  fst (transform_data Demo.parse_datetime
         (Some [("Date", Object [Some "hello"; Some "world"]); ("Value", Int64 [1; 1])])
         Demo.fresh)
  = Ok (Some [("Date", Datetime64 [None; None]); ("Value", Int64 [1; 1])])
  /\ duplicated [("Date", Datetime64 [None; None]); ("Value", Int64 [1; 1])]
     = [false; true].
Proof. split; reflexivity. Qed.

(** ** A float column without a mean *)

Lemma fillna_float_nan xs : fillna_float F64.nan xs = xs.
Proof.
  unfold fillna_float. induction xs as [| x xs IH]; simpl; [reflexivity |].
  rewrite IH. now destruct x.
Qed.

Lemma isnan_nan x : F64.isnan x = true -> x = F64.nan.
Proof. destruct x; simpl; try discriminate. reflexivity. Qed.

(** The mean of a column with no present value is NaN. *)
Lemma nanmean_of_nothing xs : forallb F64.isnan xs = true -> nanmean xs = F64.nan.
Proof.
  intros H. unfold nanmean.
  assert (E : filter (fun x => negb (F64.isnan x)) xs = []).
  { induction xs as [| x xs IH]; simpl in *; [reflexivity |].
    apply andb_true_iff in H. destruct H as [Hx Hxs]. rewrite Hx. simpl. auto. }
  rewrite E. reflexivity.
Qed.

Lemma mean_filled_without_mean xs :
  F64.isnan (nanmean xs) = true -> mean_filled (Float64 xs) = Float64 xs.
Proof.
  intros H. simpl. destruct (any (map F64.isnan xs)); [| reflexivity].
  now rewrite (isnan_nan _ H), fillna_float_nan.
Qed.

Section WithoutMean.

Variable parse_datetime : coldata -> cell -> option Z.

(** X12. A float column whose mean is NaN, as it is when the column has
    no present value, is left as it is by the first loop, missing values
    included; the cleaner prints the line that says they were filled all
    the same. *)
Theorem fill_mean_without_mean :
  forall df w name xs,
    unique_labels (columns df) = true ->
    imputable df = true ->
    In (name, Float64 xs) df ->
    any (map F64.isnan xs) = true ->
    F64.isnan (nanmean xs) = true ->
    get_col name (on_columns mean_filled df) = Some (Float64 xs)
    /\ fst (transform_data parse_datetime (Some df) w)
       = Ok (Some (cleaned parse_datetime df))
    /\ In (Print (LFilledMean name))
         (trace (snd (transform_data parse_datetime (Some df) w)))
    /\ (name <> "Date" ->
        get_col name (cleaned parse_datetime df)
        = Some (Float64 (select (kept_rows df) xs)))
    /\ (forallb F64.isnan xs = true -> nanmean xs = F64.nan).
Proof.
  intros df w name xs Hu Hi Hin Hany Hnan. apply unique_labels_NoDup in Hu.
  pose proof (mean_filled_without_mean xs Hnan) as Hsame.
  split.
  { rewrite get_col_on_columns, (get_col_In name _ df Hu Hin). cbn [option_map].
    f_equal. exact Hsame. }
  rewrite transform_data_run by assumption. cbn [fst snd trace].
  split; [reflexivity |]. split.
  { apply in_or_app. right. right. right. unfold cleaning_events.
    apply in_or_app. left. apply in_or_app. left.
    unfold mean_events. apply in_flat_map. exists (name, Float64 xs).
    split; [exact Hin |]. simpl. rewrite Hany. now left. }
  split.
  { intros N. rewrite (get_col_cleaned parse_datetime df name _ Hu Hin N), Hsame.
    reflexivity. }
  apply nanmean_of_nothing.
Qed.

End WithoutMean.

(** X12 on a frame with an empty column of readings. *)
Lemma fill_mean_without_mean_witness :
  get_col "Reading" (on_columns mean_filled Faults.blank)
  = Some (Float64 [F64.nan; F64.nan])
  /\ In (Print (LFilledMean "Reading"))
       (trace (snd (transform_data Demo.parse_datetime (Some Faults.blank) Demo.fresh))).
Proof.
  destruct (fill_mean_without_mean Demo.parse_datetime Faults.blank Demo.fresh
              "Reading" [F64.nan; F64.nan])
    as (H1 & _ & H3 & _); try reflexivity.
  - simpl. right. left. reflexivity.
  - split; [exact H1 | exact H3].
Defined.

(** ** The fill loops, once more *)

Lemma mean_filled_settled c : mean_filled (mean_filled c) = mean_filled c.
Proof.
  destruct c as [xs | xs | xs | xs | xs]; try reflexivity.
  destruct (F64.isnan (nanmean xs)) eqn:Hm.
  - now rewrite !(mean_filled_without_mean xs Hm).
  - simpl. destruct (any (map F64.isnan xs)) eqn:E; simpl.
    + now rewrite (fillna_float_settled _ xs Hm).
    + now rewrite E.
Qed.

Lemma fillna_object_settled v xs : any (map is_none (fillna_object v xs)) = false.
Proof.
  unfold any, fillna_object. induction xs as [| [x |] xs IH]; simpl; auto.
Qed.

Lemma mode_filled_settled c : mode_filled (mode_filled c) = mode_filled c.
Proof.
  destruct c as [xs | xs | xs | xs | xs]; try reflexivity.
  simpl. destruct (any (map is_none xs)) eqn:E.
  - destruct (mode xs) as [| v rest] eqn:Em; simpl.
    + now rewrite E, Em.
    + now rewrite fillna_object_settled.
  - simpl. now rewrite E.
Qed.

Lemma mode_filled_mean_filled c : mode_filled (mean_filled c) = mean_filled (mode_filled c).
Proof.
  destruct c as [xs | xs | xs | xs | xs]; try reflexivity.
  - simpl. now destruct (any (map F64.isnan xs)).
  - simpl. destruct (any (map is_none xs)); [| reflexivity]. now destruct (mode xs).
Qed.

Lemma object_filled c :
  has_mode c = true -> is_object c && any (isnull (mode_filled c)) = false.
Proof.
  destruct c as [xs | xs | xs | xs | xs]; try reflexivity.
  simpl. intros H. destruct (any (map is_none xs)) eqn:E; simpl.
  - simpl in H. pose proof (mode_exists xs H) as Hm.
    destruct (mode xs) as [| v rest]; [congruence |]. simpl.
    apply fillna_object_settled.
  - exact E.
Qed.

Lemma has_mode_mean_filled c : has_mode (mean_filled c) = has_mode c.
Proof.
  destruct c as [xs | xs | xs | xs | xs]; try reflexivity.
  simpl. now destruct (any (map F64.isnan xs)).
Qed.

Lemma has_mode_mode_filled c : has_mode c = true -> has_mode (mode_filled c) = true.
Proof.
  destruct c as [xs | xs | xs | xs | xs]; try reflexivity.
  intros H. simpl in *. destruct (any (map is_none xs)) eqn:E.
  - simpl in H. pose proof (mode_exists xs H) as Hm.
    destruct (mode xs) as [| v rest]; [congruence |]. simpl.
    now rewrite fillna_object_settled.
  - simpl. now rewrite E.
Qed.

Lemma imputable_imputed df : imputable df = true -> imputable (imputed df) = true.
Proof.
  unfold imputable, imputed, on_columns. rewrite !forallb_forall.
  intros H c Hc. rewrite map_map in Hc. apply in_map_iff in Hc.
  destruct Hc as (c0 & <- & Hc0). simpl.
  apply has_mode_mode_filled. rewrite has_mode_mean_filled. now apply H.
Qed.

Lemma is_object_mode_filled c : is_object (mode_filled c) = is_object c.
Proof.
  destruct c as [xs | xs | xs | xs | xs]; try reflexivity.
  simpl. destruct (any (map is_none xs)); [| reflexivity]. now destruct (mode xs).
Qed.

Lemma mode_events_none df :
  (forall c, In c df -> is_object (snd c) && any (isnull (snd c)) = false) ->
  mode_events df = [].
Proof.
  unfold mode_events. induction df as [| c df IH]; intros H; [reflexivity |].
  simpl. rewrite (H c) by now left. simpl. apply IH.
  intros x Hx. apply H. now right.
Qed.

Lemma mode_events_imputed df : imputable df = true -> mode_events (imputed df) = [].
Proof.
  intros H. apply mode_events_none. intros c Hc.
  unfold imputed, on_columns in Hc. rewrite map_map in Hc. apply in_map_iff in Hc.
  destruct Hc as (c0 & <- & Hc0). simpl.
  unfold imputable in H. rewrite forallb_forall in H.
  rewrite is_object_mode_filled. apply object_filled.
  rewrite has_mode_mean_filled. now apply H.
Qed.

(** X13. On the frame the two fill loops leave (distinct labels, a mode
    in every object column), the first loop run once more returns the
    frame as it is, and the second loop run once more returns it as it is
    and prints nothing. *)
Theorem fill_loops_settle :
  forall df w,
    unique_labels (columns df) = true ->
    imputable df = true ->
    fst (for_each (select_dtypes is_number (imputed df)) fill_mean (imputed df) w)
    = Ok (imputed df)
    /\ for_each (select_dtypes is_object (imputed df)) fill_mode (imputed df) w
       = (Ok (imputed df), w).
Proof.
  intros df w Hu Hi. apply unique_labels_NoDup in Hu.
  assert (Hnd : NoDup (columns (imputed df)))
    by (unfold imputed; now rewrite !columns_on_columns).
  split.
  - rewrite fill_means_run by exact Hnd. simpl. f_equal.
    unfold imputed, on_columns. rewrite !map_map. apply map_ext.
    intros c. simpl. f_equal.
    now rewrite mode_filled_mean_filled, mean_filled_settled.
  - rewrite fill_modes_run by (auto using imputable_imputed).
    rewrite mode_events_imputed by exact Hi. rewrite world_same. f_equal. f_equal.
    unfold imputed, on_columns. rewrite !map_map. apply map_ext.
    intros c. simpl. f_equal. apply mode_filled_settled.
Qed.

(** X13 on a frame with a gap in each of its two columns. *)
Lemma fill_loops_settle_witness :
  fst (for_each (select_dtypes is_number (imputed Demo.measured)) fill_mean
         (imputed Demo.measured) Demo.fresh)
  = Ok (imputed Demo.measured)
  /\ for_each (select_dtypes is_object (imputed Demo.measured)) fill_mode
       (imputed Demo.measured) Demo.fresh
     = (Ok (imputed Demo.measured), Demo.fresh).
Proof.
  apply (fill_loops_settle Demo.measured Demo.fresh); reflexivity.
Defined.

(** ** Missing dates *)

Lemma select_no_none mask : forall xs : list (option string),
  any (map is_none xs) = false -> any (map is_none (select mask xs)) = false.
Proof.
  unfold any. induction mask as [| b mask IH]; intros [| x xs]; simpl; auto.
  intros H. apply orb_false_iff in H. destruct H as [Hx Hxs].
  destruct b; simpl.
  - rewrite Hx. simpl. now apply IH.
  - now apply IH.
Qed.

Section MissingDates.

Variable parse_datetime : coldata -> cell -> option Z.

(** X14. The dates are parsed after the fills.  When the column named
    "Date" is an object column with missing values (in a frame with
    distinct labels and a mode in every object column), the second loop
    has put the mode of the column in their place before the date step
    runs: the column the parser is given has no missing value, and the
    date column of the cleaned frame is what the parser makes of the filled
    column less the duplicate rows. *)
Theorem missing_dates_take_the_mode :
  forall df w xs,
    unique_labels (columns df) = true ->
    imputable df = true ->
    In ("Date", Object xs) df ->
    any (map is_none xs) = true ->
    exists mode_val rest,
      mode xs = mode_val :: rest
      /\ let given := Object (select (kept_rows df) (fillna_object mode_val xs)) in
         fst (transform_data parse_datetime (Some df) w)
         = Ok (Some (cleaned parse_datetime df))
         /\ get_col "Date" (drop_duplicates (imputed df)) = Some given
         /\ any (isnull given) = false
         /\ get_col "Date" (cleaned parse_datetime df)
            = Some (to_datetime parse_datetime given).
Proof.
  intros df w xs Hu Hi Hin Hnone. apply unique_labels_NoDup in Hu.
  assert (Hmode : has_mode (Object xs) = true).
  { unfold imputable in Hi. rewrite forallb_forall in Hi. exact (Hi _ Hin). }
  simpl in Hmode. rewrite Hnone in Hmode. simpl in Hmode.
  pose proof (mode_exists xs Hmode) as Hne.
  destruct (mode xs) as [| mode_val rest] eqn:E; [congruence |].
  exists mode_val, rest. split; [reflexivity |]. simpl.
  assert (Hgiven : get_col "Date" (drop_duplicates (imputed df))
                   = Some (Object (select (kept_rows df) (fillna_object mode_val xs)))).
  { unfold drop_duplicates, imputed.
    rewrite get_col_frame_select, !get_col_on_columns.
    rewrite (get_col_In "Date" _ df Hu Hin). simpl. now rewrite Hnone, E. }
  split; [now rewrite transform_data_run |].
  split; [exact Hgiven |].
  split; [apply select_no_none, fillna_object_settled |].
  unfold cleaned, date_converted. fold (imputed df). rewrite Hgiven.
  exact (get_col_set_col "Date" _ _ _ Hgiven).
Qed.

End MissingDates.

(** X14 on three rows, the second without a date. *)
Lemma missing_dates_take_the_mode_witness :
  exists mode_val rest,
    mode [Some "2020-01-01"; None; Some "2020-01-01"] = mode_val :: rest
    /\ get_col "Date"
         (cleaned Demo.parse_datetime
            [("Date", Object [Some "2020-01-01"; None; Some "2020-01-01"]);
             ("Value", Int64 [10; 20; 10])])
       = Some (Datetime64 [Some 1577836800000000000; Some 1577836800000000000]).
Proof.
  destruct (missing_dates_take_the_mode Demo.parse_datetime
              [("Date", Object [Some "2020-01-01"; None; Some "2020-01-01"]);
               ("Value", Int64 [10; 20; 10])]
              Demo.fresh [Some "2020-01-01"; None; Some "2020-01-01"])
    as (v & rest & Hm & _ & _ & _ & Hd); try reflexivity.
  - simpl. left. reflexivity.
  - exists v, rest. split; [exact Hm |].
    rewrite Hd. injection Hm as <- <-. reflexivity.
Defined.

(** ** The rows the duplicate step keeps *)

Lemma key_eqb_refl x : F64.key_eqb x x = true.
Proof. now apply key_eqb_float_key. Qed.

Lemma cell_eqb_refl a : cell_eqb a a = true.
Proof.
  destruct a as [z | x | b | [s |] | [z |]]; simpl; try reflexivity.
  - apply Z.eqb_refl.
  - apply key_eqb_refl.
  - now destruct b.
  - apply String.eqb_refl.
  - apply Z.eqb_refl.
Qed.

Lemma row_eqb_refl r : row_eqb r r = true.
Proof. induction r as [| a r IH]; simpl; [reflexivity |]. now rewrite cell_eqb_refl. Qed.

(** A selection by a mask is the list of the values at the positions the
    mask marks, in their order. *)
Lemma select_positions_from {A} (d : A) mask : forall xs k,
  length mask = length xs ->
  select mask xs
  = map (fun i => nth (i - k) xs d)
      (filter (fun i => nth (i - k) mask false) (seq k (length xs))).
Proof.
  induction mask as [| b mask IH]; intros [| x xs] k Hlen; simpl in Hlen;
    try discriminate; [reflexivity |].
  injection Hlen as Hlen.
  assert (Hf : filter (fun i => nth (i - k) (b :: mask) false) (seq (S k) (length xs))
               = filter (fun i => nth (i - S k) mask false) (seq (S k) (length xs))).
  { apply filter_ext_in. intros i Hi. apply in_seq in Hi.
    replace (i - k)%nat with (S (i - S k)) by lia. reflexivity. }
  assert (Hm : forall l, (forall i, In i l -> (S k <= i)%nat) ->
                 map (fun i => nth (i - k) (x :: xs) d) l
                 = map (fun i => nth (i - S k) xs d) l).
  { intros l Hl. apply map_ext_in. intros i Hi. apply Hl in Hi.
    replace (i - k)%nat with (S (i - S k)) by lia. reflexivity. }
  assert (Hge : forall i,
             In i (filter (fun i => nth (i - S k) mask false) (seq (S k) (length xs))) ->
             (S k <= i)%nat).
  { intros i Hi. apply filter_In in Hi. destruct Hi as [Hi _].
    apply in_seq in Hi. lia. }
  cbn [select length seq filter]. rewrite Hf, Nat.sub_diag.
  change (nth 0 (b :: mask) false) with b.
  destruct b; cbn [map]; rewrite (Hm _ Hge), <- (IH xs (S k) Hlen);
    [rewrite Nat.sub_diag |]; reflexivity.
Qed.

Lemma select_positions {A} (d : A) mask xs :
  length mask = length xs ->
  select mask xs
  = map (fun i => nth i xs d) (filter (fun i => nth i mask false) (seq 0 (length xs))).
Proof.
  intros Hlen. rewrite (select_positions_from d mask xs 0%nat Hlen).
  rewrite (map_ext (fun i => nth (i - 0) xs d) (fun i => nth i xs d))
    by (intros i; now rewrite Nat.sub_0_r).
  f_equal. apply filter_ext. intros i. now rewrite Nat.sub_0_r.
Qed.

Lemma nth_map_negb mask i :
  (i < length mask)%nat -> nth i (map negb mask) false = negb (nth i mask false).
Proof.
  intros Hi. change false with (negb true) at 1. rewrite map_nth.
  f_equal. now apply nth_indep.
Qed.

(** The rows that are not flagged are the first occurrences. *)
Lemma kept_positions df :
  aligned df = true ->
  filter (fun i => nth i (map negb (duplicated df)) false) (seq 0 (length (rows df)))
  = first_occurrences (rows df).
Proof.
  intros Ha. unfold first_occurrences. apply filter_ext_in.
  intros i Hi. apply in_seq in Hi. rewrite rows_length in Hi by exact Ha.
  rewrite nth_map_negb by (rewrite duplicated_length by exact Ha; lia).
  unfold repeats_earlier. now rewrite duplicated_flags_earlier by (auto; lia).
Qed.

Lemma rows_drop_duplicates df :
  aligned df = true ->
  rows (drop_duplicates df)
  = map (fun i => nth i (rows df) []) (first_occurrences (rows df)).
Proof.
  intros Ha. pose proof (duplicated_length df Ha) as Hlen.
  unfold drop_duplicates.
  rewrite rows_frame_select by (rewrite ?length_map; assumption).
  rewrite (select_positions ([] : row))
    by (rewrite length_map, rows_length by exact Ha; exact Hlen).
  now rewrite kept_positions.
Qed.

Lemma len_first_occurrences df :
  aligned df = true ->
  len (drop_duplicates df) = length (first_occurrences (rows df)).
Proof.
  intros Ha.
  rewrite <- (rows_length (drop_duplicates df)) by now apply aligned_drop_duplicates.
  now rewrite rows_drop_duplicates, length_map.
Qed.

Lemma repeated_rows_first_occurrences rs :
  (length (first_occurrences rs) + repeated_rows rs = length rs)%nat.
Proof.
  unfold first_occurrences, repeated_rows.
  pose proof (filter_length (repeats_earlier rs) (seq 0 (length rs))) as H.
  rewrite length_seq in H. lia.
Qed.

(** No row of the result repeats a row above it. *)
Lemma drop_duplicates_no_repeats df j :
  aligned df = true -> (j < len (drop_duplicates df))%nat ->
  repeats_earlier (rows (drop_duplicates df)) j = false.
Proof.
  intros Ha Hj. unfold repeats_earlier.
  rewrite <- duplicated_flags_earlier by auto using aligned_drop_duplicates.
  rewrite (any_false_repeat _ (duplicated_drop_duplicates df Ha)).
  apply nth_repeat.
Qed.

(** Every row has a row with its values among the first occurrences. *)
Lemma first_occurrences_cover rs : forall i,
  (i < length rs)%nat ->
  existsb (row_eqb (nth i rs []))
    (map (fun i => nth i rs []) (first_occurrences rs)) = true.
Proof.
  intros i. induction i as [i IH] using lt_wf_ind. intros Hi.
  destruct (repeats_earlier rs i) eqn:E.
  - unfold repeats_earlier in E. apply existsb_exists in E.
    destruct E as (r & Hr & Heq).
    destruct (In_nth _ _ [] Hr) as (j & Hj & Hnth).
    rewrite length_firstn in Hj. rewrite nth_firstn in Hnth.
    destruct (Nat.ltb_spec j i) as [Hji | Hji]; [| lia].
    assert (Hjl : (j < length rs)%nat) by lia.
    specialize (IH j Hji Hjl).
    apply existsb_exists in IH. destruct IH as (r' & Hr' & Heq').
    apply existsb_exists. exists r'. split; [exact Hr' |].
    apply row_eqb_trans with r; [exact Heq | now rewrite <- Hnth].
  - apply existsb_exists. exists (nth i rs []). split; [| apply row_eqb_refl].
    apply in_map_iff. exists i. split; [reflexivity |].
    unfold first_occurrences. apply filter_In. split.
    + apply in_seq. split; [apply Nat.le_0_l | exact Hi].
    + now rewrite E.
Qed.

Section FirstOccurrences.

Variable parse_datetime : coldata -> cell -> option Z.

(** C2. On a frame whose columns are aligned, the duplicate-removal step
    of the cleaner returns a frame with the same column labels whose rows
    are the rows of its input that have no row above them with the same
    value in every column, in their order; it prints the number of the
    other rows when there is one of them, and that many rows fewer are
    left.  In its result no row repeats a row above it, and every row of
    the input has a row with its values.  Applied to its result, the step
    returns it as it is and prints nothing.  The cleaner applies the step
    to the frame the two fill loops leave and converts the dates of its
    result. *)
Theorem remove_duplicates_keeps_first_occurrences :
  forall df w,
    aligned df = true ->
    let kept := first_occurrences (rows df) in
    let removed := repeated_rows (rows df) in
    exists out,
      remove_duplicates df w
      = (Ok out,
         mkWorld
           (trace w ++
            if (0 <? removed)%nat then [Print (LRemovedDuplicates removed)] else [])
           (db w))
      /\ columns out = columns df
      /\ aligned out = true
      /\ rows out = map (fun i => nth i (rows df) []) kept
      /\ len out = length kept
      /\ (len out + removed = len df)%nat
      /\ (forall j, (j < len out)%nat -> repeats_earlier (rows out) j = false)
      /\ (forall i, (i < len df)%nat ->
            existsb (row_eqb (nth i (rows df) [])) (rows out) = true)
      /\ (forall w', remove_duplicates out w' = (Ok out, w'))
      /\ (forall df0,
            unique_labels (columns df0) = true ->
            imputable df0 = true ->
            df = on_columns mode_filled (on_columns mean_filled df0) ->
            fst (transform_data parse_datetime (Some df0) w)
            = Ok (Some (date_converted parse_datetime out))).
Proof.
  intros df w Ha kept removed.
  pose proof (aligned_drop_duplicates df Ha) as Ha'.
  pose proof (len_first_occurrences df Ha) as Hlen. fold kept in Hlen.
  pose proof (repeated_rows_first_occurrences (rows df)) as Hcount.
  fold kept removed in Hcount. rewrite rows_length in Hcount by exact Ha.
  exists (drop_duplicates df).
  split.
  { rewrite remove_duplicates_run.
    destruct (Nat.ltb_spec (len (drop_duplicates df)) (len df));
      destruct (Nat.ltb_spec 0 removed); try lia; [| reflexivity].
    replace (len df - len (drop_duplicates df))%nat with removed by lia.
    reflexivity. }
  split; [apply columns_frame_select |].
  split; [exact Ha' |].
  split; [now apply rows_drop_duplicates |].
  split; [exact Hlen |].
  split; [lia |].
  split; [intros j Hj; now apply drop_duplicates_no_repeats |].
  split.
  { intros i Hi. rewrite rows_drop_duplicates by exact Ha.
    apply first_occurrences_cover. now rewrite rows_length. }
  split.
  { intros w'. rewrite remove_duplicates_run, drop_duplicates_settled by exact Ha.
    rewrite Nat.ltb_irrefl. now rewrite world_same. }
  intros df0 Hu Hi ->. apply unique_labels_NoDup in Hu.
  now rewrite transform_data_run.
Qed.

End FirstOccurrences.

(** C2 on a frame of three rows, the third equal to the first. *)
Lemma remove_duplicates_keeps_first_occurrences_witness :
  exists out,
    remove_duplicates Demo.three_rows Demo.fresh
    = (Ok out, mkWorld [Print (LRemovedDuplicates 1)] Demo.empty_store)
    /\ rows out = map (fun i => nth i (rows Demo.three_rows) []) [0; 1]%nat
    /\ (len out + 1 = len Demo.three_rows)%nat
    /\ (forall w', remove_duplicates out w' = (Ok out, w')).
Proof.
  destruct (remove_duplicates_keeps_first_occurrences Demo.parse_datetime
              Demo.three_rows Demo.fresh)
    as (out & Hrun & _ & _ & Hrows & _ & Hcount & _ & _ & Hagain & _);
    [reflexivity |].
  exists out. split; [exact Hrun |]. split; [exact Hrows |].
  split; [exact Hcount | exact Hagain].
Defined.

Example remove_duplicates_three_rows :
  fst (remove_duplicates Demo.three_rows Demo.fresh)
  = Ok [("Date", Object [Some "2020-01-01"; Some "2020-01-01"]); ("Value", Int64 [10; 20])].
Proof. reflexivity. Qed.
